(** * seigtm/bmp: the 24-bit to 4-bit BMP converter and the BMP file tester

    A shallow embedding of [bmp_converter.cpp] and [bmp_file_tester.cpp].
    Files are byte lists, the packed header structs are records of integers
    with their object representation written out, [double] values are
    binary64 floats, and the two [for] loops of the converter are kept as
    loops (with fuel) over an explicit stream state.

    The target is the one the sources are written for: little endian, with
    a 64-bit [std::size_t].  Where C++ leaves a conversion undefined (an
    [int] product that overflows, a [double] out of the range of
    [std::uint32_t]) the value is reduced modulo the width of the type; no
    property below depends on it. *)

From Stdlib Require Import ZArith List Lia Bool.
From Stdlib Require Import Strings.Byte.
From Stdlib Require Import Floats Uint63.
Import ListNotations.
Open Scope Z_scope.

(** ** Integer types of the source *)

(** A value converted to an integer type is reduced modulo its width. *)

Module Int.

Definition to_uint8 (z : Z) : Z := z mod 2 ^ 8.
Definition to_uint16 (z : Z) : Z := z mod 2 ^ 16.
Definition to_uint32 (z : Z) : Z := z mod 2 ^ 32.
Definition to_size_t (z : Z) : Z := z mod 2 ^ 64.
Definition to_int32 (z : Z) : Z := (z + 2 ^ 31) mod 2 ^ 32 - 2 ^ 31.

End Int.
Import Int.

(** ** Bytes and object representations (little endian, [#pragma pack(1)]) *)

Definition u8 (b : byte) : Z := Z.of_N (Byte.to_N b).

Definition byte_of_Z (z : Z) : byte :=
  match Byte.of_N (Z.to_N (to_uint8 z)) with
  | Some b => b
  | None => x00
  end.

(** The unsigned value held by a little-endian byte sequence. *)
Fixpoint le_uint (bs : list byte) : Z :=
  match bs with
  | [] => 0
  | b :: rest => u8 b + 256 * le_uint rest
  end.

(** The [n] bytes that hold [z] (two's complement for a negative [z]). *)
Fixpoint le_bytes (n : nat) (z : Z) : list byte :=
  match n with
  | O => []
  | S k => byte_of_Z z :: le_bytes k (z / 256)
  end.

(** [len] bytes of an object at offset [off]. *)
Definition field (off len : nat) (m : list byte) : list byte :=
  firstn len (skipn off m).

Record bitmap_file_header := {
  bf_type : Z;       (* std::uint16_t *)
  bf_size : Z;       (* std::uint32_t *)
  bf_reserved1 : Z;  (* std::uint16_t *)
  bf_reserved2 : Z;  (* std::uint16_t *)
  bf_off_bits : Z    (* std::uint32_t *)
}.

Record bitmap_info_header := {
  bi_size : Z;              (* std::uint32_t *)
  bi_width : Z;             (* std::int32_t *)
  bi_height : Z;            (* std::int32_t *)
  bi_planes : Z;            (* std::uint16_t *)
  bi_bit_count : Z;         (* std::uint16_t *)
  bi_compression : Z;       (* std::uint32_t *)
  bi_size_image : Z;        (* std::uint32_t *)
  bi_x_pels_per_meter : Z;  (* std::int32_t *)
  bi_y_pels_per_meter : Z;  (* std::int32_t *)
  bi_clr_used : Z;          (* std::uint32_t *)
  bi_clr_important : Z      (* std::uint32_t *)
}.

(** The colour structs; the field names are those of the [RGBQUAD] and
    [RGBTRIPLE] variant of the converter, which keeps the two records apart. *)
Record rgb_quad := {
  rgbBlue : byte;
  rgbGreen : byte;
  rgbRed : byte;
  rgbReserved : byte
}.

Record rgb_triple := {
  rgbtBlue : byte;
  rgbtGreen : byte;
  rgbtRed : byte
}.

Definition sizeof_bitmap_file_header : nat := 14.
Definition sizeof_bitmap_info_header : nat := 40.
Definition sizeof_rgb_quad : nat := 4.
Definition sizeof_rgb_triple : nat := 3.

(** Reading a struct out of the bytes that [read] stored into it. *)
Definition load_file_header (m : list byte) : bitmap_file_header :=
  {| bf_type := le_uint (field 0 2 m);
     bf_size := le_uint (field 2 4 m);
     bf_reserved1 := le_uint (field 6 2 m);
     bf_reserved2 := le_uint (field 8 2 m);
     bf_off_bits := le_uint (field 10 4 m) |}.

Definition load_info_header (m : list byte) : bitmap_info_header :=
  {| bi_size := le_uint (field 0 4 m);
     bi_width := to_int32 (le_uint (field 4 4 m));
     bi_height := to_int32 (le_uint (field 8 4 m));
     bi_planes := le_uint (field 12 2 m);
     bi_bit_count := le_uint (field 14 2 m);
     bi_compression := le_uint (field 16 4 m);
     bi_size_image := le_uint (field 20 4 m);
     bi_x_pels_per_meter := to_int32 (le_uint (field 24 4 m));
     bi_y_pels_per_meter := to_int32 (le_uint (field 28 4 m));
     bi_clr_used := le_uint (field 32 4 m);
     bi_clr_important := le_uint (field 36 4 m) |}.

Definition load_rgb_triple (m : list byte) : rgb_triple :=
  {| rgbtBlue := nth 0 m x00; rgbtGreen := nth 1 m x00; rgbtRed := nth 2 m x00 |}.

(** The bytes [write] takes out of a struct. *)
Definition store_file_header (h : bitmap_file_header) : list byte :=
  le_bytes 2 (bf_type h) ++ le_bytes 4 (bf_size h) ++
  le_bytes 2 (bf_reserved1 h) ++ le_bytes 2 (bf_reserved2 h) ++
  le_bytes 4 (bf_off_bits h).

Definition store_info_header (h : bitmap_info_header) : list byte :=
  le_bytes 4 (bi_size h) ++ le_bytes 4 (bi_width h) ++ le_bytes 4 (bi_height h) ++
  le_bytes 2 (bi_planes h) ++ le_bytes 2 (bi_bit_count h) ++
  le_bytes 4 (bi_compression h) ++ le_bytes 4 (bi_size_image h) ++
  le_bytes 4 (bi_x_pels_per_meter h) ++ le_bytes 4 (bi_y_pels_per_meter h) ++
  le_bytes 4 (bi_clr_used h) ++ le_bytes 4 (bi_clr_important h).

Definition store_rgb_quad (q : rgb_quad) : list byte :=
  [rgbBlue q; rgbGreen q; rgbRed q; rgbReserved q].

(** ** namespace constants *)

Module constants.

Definition target_bitcount : Z := 4.
Definition BMP_SIGNATURE : Z := 0x4D42.

End constants.

(** ** namespace utils *)

Module utils.

(** An [int] converted to [double]. *)
Definition double_of_int (z : Z) : float :=
  if z <? 0 then (- of_uint63 (Uint63.of_Z (- z)))%float
  else of_uint63 (Uint63.of_Z z).

(** [std::pow(x, 2)]: the square of [x], correctly rounded. *)
Definition pow_2 (x : float) : float := (x * x)%float.

Definition color_distance (color1 : rgb_triple) (color2 : rgb_quad) : float :=
  PrimFloat.sqrt
    (pow_2 (double_of_int (u8 (rgbBlue color2) - u8 (rgbtBlue color1))) +
     pow_2 (double_of_int (u8 (rgbGreen color2) - u8 (rgbtGreen color1))) +
     pow_2 (double_of_int (u8 (rgbRed color2) - u8 (rgbtRed color1))))%float.

(** [std::ranges::min_element]: a forward scan that keeps the position of the
    smallest element seen and moves it only when [comp current smallest]. *)
Fixpoint min_element_from {A : Type} (comp : A -> A -> bool)
    (rest : list A) (pos : nat) (smallest_pos : nat) (smallest : A) : nat :=
  match rest with
  | [] => smallest_pos
  | x :: rest' =>
      if comp x smallest
      then min_element_from comp rest' (S pos) pos x
      else min_element_from comp rest' (S pos) smallest_pos smallest
  end.

Definition min_element {A : Type} (comp : A -> A -> bool) (l : list A) : nat :=
  match l with
  | [] => 0%nat
  | first :: rest => min_element_from comp rest 1 0 first
  end.

(** The result is a [std::byte], kept as its value in 0..255. *)
Definition find_closest_color (color : rgb_triple) (palette : list rgb_quad) : Z :=
  let distance_to_color := fun lhs rhs =>
    (color_distance color lhs <? color_distance color rhs)%float in
  to_uint8 (Z.of_nat (min_element distance_to_color palette)).

End utils.

(** [operator<<] and [operator|] of [std::byte]. *)
Definition byte_shl (b : Z) (shift : Z) : Z := to_uint8 (Z.shiftl b shift).
Definition byte_or (l r : Z) : Z := Z.lor l r.

(** ** The palette *)

Definition quad (b g r a : byte) : rgb_quad :=
  {| rgbBlue := b; rgbGreen := g; rgbRed := r; rgbReserved := a |}.

Definition palette : list rgb_quad :=
  [ quad x00 x00 x00 x00;   (* #000000 (Black). *)
    quad x00 x00 xff x00;   (* #ff0000 (Red). *)
    quad x00 xa1 xff x00;   (* #ffa100 (Orange). *)
    quad x9f xa0 xff x00;   (* #ffa09f (Light Red). *)
    quad x00 xff xff x00;   (* #ffff00 (Yellow). *)
    quad x00 xa0 xa3 x00;   (* #a3a000 (Dark Yellow). *)
    quad x00 xa1 x00 x00;   (* #00a100 (Green). *)
    quad x00 xff x00 x00;   (* #00ff00 (Lime). *)
    quad x9d xff xa0 x00;   (* #a0ff9d (Light Green). *)
    quad x9b x00 x00 x00;   (* #00009b (Dark Blue). *)
    quad xff x00 x00 x00;   (* #0000ff (Blue). *)
    quad xff x00 xa2 x00;   (* #a200ff (Purple). *)
    quad xff x00 xff x00;   (* #ff00ff (Pink/Magenta). *)
    quad xff xff x00 x00;   (* #00ffff (Cyan). *)
    quad x9f xa1 xa2 x00;   (* #a2a19f (Gray). *)
    quad xff xff xff x00 ]. (* #ffffff (White). *)

(** [palette.data()] seen as [sizeof(palette)] bytes. *)
Definition palette_bytes : list byte := flat_map store_rgb_quad palette.

(** ** [std::ifstream] *)

(** An input stream opened on a file: the bytes not yet extracted, and
    whether the stream is still good.  A failed stream extracts nothing. *)
Record ifstream := {
  unread : list byte;
  good : bool
}.

Definition ifstream_open (file : list byte) : ifstream :=
  {| unread := file; good := true |}.

(** [s.read(dest, n)]: on a good stream with [n] bytes left the object is
    overwritten with them; with fewer bytes left they overwrite its first
    bytes, the rest of the object keeps what it held ([dest]), and the stream
    fails; on a failed stream the object is left as it was. *)
Definition ifstream_read (n : nat) (dest : list byte) (s : ifstream)
    : list byte * ifstream :=
  if good s then
    if (n <=? length (unread s))%nat
    then (firstn n (unread s), {| unread := skipn n (unread s); good := true |})
    else (unread s ++ skipn (length (unread s)) dest,
          {| unread := []; good := false |})
  else (dest, s).

(** ** convert_bmp_24_to_4_depth *)

Inductive diagnostic :=
  | Failed_to_open_input_file
  | File_is_not_a_BMP_file
  | File_has_not_24_bits_per_pixel
  | Failed_to_open_output_file.

(** What a call leaves behind: the message on [std::cerr], if any, and the
    output file, [None] when the output stream was never constructed (or
    could not be opened) and no file was created. *)
Record outcome := {
  cerr : option diagnostic;
  output_file : option (list byte)
}.

Definition failure (d : diagnostic) : outcome :=
  {| cerr := Some d; output_file := None |}.

(** [std::ceil] applied to an [int]: the argument is converted to [double]
    and is integral already. *)
Definition ceil_of_int (n : Z) : Z := n.

(** The [int] product and the [int] quotient, which truncates, are taken
    first, and [std::ceil] is applied to the quotient.  For the widths 0 to
    2^29 - 1 the product is an [int] and the [double] is a [std::uint32_t]:
    what is proved of the size field is proved of these widths.  For the
    other widths the language leaves the product or the conversion
    undefined; the quotient is then that of the exact product, and the
    conversion is written as reduction modulo 2^32. *)
Definition row_size (ih : bitmap_info_header) : Z :=
  to_uint32
    (ceil_of_int (Z.quot (constants.target_bitcount * bi_width ih) 32) * 4).

Definition pixel_array_size (ih : bitmap_info_header) : Z :=
  to_uint32 (row_size ih * to_uint32 (bi_height ih)).

(** "Update file headers for 4-bit depth." *)
Definition update_file_header (fh : bitmap_file_header) (ih : bitmap_info_header)
    : bitmap_file_header :=
  {| bf_type := bf_type fh;
     bf_size :=
       to_uint32 (pixel_array_size ih + Z.of_nat sizeof_bitmap_file_header
                  + Z.of_nat sizeof_bitmap_info_header);
     bf_reserved1 := bf_reserved1 fh;
     bf_reserved2 := bf_reserved2 fh;
     bf_off_bits :=
       to_uint32 (bf_off_bits fh
                  + Z.of_nat sizeof_rgb_quad * 2 ^ constants.target_bitcount) |}.

Definition update_info_header (ih : bitmap_info_header) : bitmap_info_header :=
  {| bi_size := bi_size ih;
     bi_width := bi_width ih;
     bi_height := bi_height ih;
     bi_planes := bi_planes ih;
     bi_bit_count := to_uint16 constants.target_bitcount;
     bi_compression := bi_compression ih;
     bi_size_image := bi_size_image ih;
     bi_x_pels_per_meter := bi_x_pels_per_meter ih;
     bi_y_pels_per_meter := bi_y_pels_per_meter ih;
     bi_clr_used := bi_clr_used ih;
     bi_clr_important := bi_clr_important ih |}.

(** The two streams while the pixel loops run. *)
Record streams := {
  input_file : ifstream;
  written : list byte
}.

(** The byte made of one [std::pair<rgb_triple, rgb_triple>]. *)
Definition two_pixels (pixels : list byte) : byte :=
  byte_of_Z
    (byte_or
       (byte_shl (utils.find_closest_color (load_rgb_triple (field 0 3 pixels)) palette) 4)
       (utils.find_closest_color (load_rgb_triple (field 3 3 pixels)) palette)).

(** A fresh [pixels] pair is value-initialised: six zero bytes. *)
Definition fresh_pixels : list byte := repeat x00 6.

(** One pass of the loop body: read a pair, write a byte. *)
Definition column_step (st : streams) : streams :=
  let '(pixels, input') := ifstream_read 6 fresh_pixels (input_file st) in
  {| input_file := input';
     written := written st ++ [two_pixels pixels] |}.

(** [for (std::size_t column{}; column < bi_width; column += 2)]: the [int]
    bound is converted to [std::size_t] for the comparison. *)
Fixpoint column_loop (fuel : nat) (bi_width : Z) (column : Z) (st : streams)
    : option streams :=
  match fuel with
  | O => None
  | S fuel' =>
      if column <? to_size_t bi_width
      then column_loop fuel' bi_width (to_size_t (column + 2)) (column_step st)
      else Some st
  end.

(** [for (std::size_t row{}; row < bi_height; ++row)]. *)
Fixpoint row_loop (fuel : nat) (bi_width bi_height : Z) (row : Z) (st : streams)
    : option streams :=
  match fuel with
  | O => None
  | S fuel' =>
      if row <? to_size_t bi_height
      then match column_loop fuel bi_width 0 st with
           | Some st' => row_loop fuel' bi_width bi_height (to_size_t (row + 1)) st'
           | None => None
           end
      else Some st
  end.

(** What the headers hold once both [read] calls are done.  [fh_object] and
    [ih_object] are the bytes the two uninitialised header objects held. *)
Definition read_headers (fh_object ih_object : list byte) (s : ifstream)
    : bitmap_file_header * bitmap_info_header * ifstream :=
  let '(fh_bytes, s1) := ifstream_read sizeof_bitmap_file_header fh_object s in
  let '(ih_bytes, s2) := ifstream_read sizeof_bitmap_info_header ih_object s1 in
  (load_file_header fh_bytes, load_info_header ih_bytes, s2).

(** The headers and the palette, as written before the pixel loops. *)
Definition written_before_pixels (fh : bitmap_file_header) (ih : bitmap_info_header)
    : list byte :=
  store_file_header (update_file_header fh ih)
  ++ store_info_header (update_info_header ih)
  ++ palette_bytes.

(** The converter.  [input] is the content of the input file ([None] when it
    cannot be opened), [output_opens] says whether the output file can be
    opened; the result is [None] when the loops did not finish within [fuel]. *)
Definition convert_bmp_24_to_4_depth (fuel : nat)
    (input : option (list byte)) (output_opens : bool)
    (fh_object ih_object : list byte) : option outcome :=
  match input with
  | None => Some (failure Failed_to_open_input_file)
  | Some file =>
      let '(fh, ih, s) := read_headers fh_object ih_object (ifstream_open file) in
      if negb (bf_type fh =? constants.BMP_SIGNATURE)
      then Some (failure File_is_not_a_BMP_file)
      else if negb (bi_bit_count ih =? 24)
      then Some (failure File_has_not_24_bits_per_pixel)
      else if negb output_opens
      then Some (failure Failed_to_open_output_file)
      else
        match row_loop fuel (bi_width ih) (bi_height ih) 0
                {| input_file := s; written := written_before_pixels fh ih |} with
        | Some st => Some {| cerr := None; output_file := Some (written st) |}
        | None => None
        end
  end.

(** ** bmp_file_tester *)

Module tester.

Definition bmp_signature : Z := 0x4D42.
Definition EXIT_SUCCESS : Z := 0.
Definition EXIT_FAILURE : Z := 1.

Inductive report :=
  | Failed_to_open_input_file
  | File_is_not_a_BMP_file
  | Dimensions (width height bits_per_pixel : Z).

(** [main]: the exit status and what was printed. *)
Definition main (input : option (list byte)) (fh_object ih_object : list byte)
    : Z * report :=
  match input with
  | None => (EXIT_FAILURE, Failed_to_open_input_file)
  | Some file =>
      let '(fh, ih, _) := read_headers fh_object ih_object (ifstream_open file) in
      if negb (bf_type fh =? bmp_signature)
      then (EXIT_FAILURE, File_is_not_a_BMP_file)
      else (EXIT_SUCCESS, Dimensions (bi_width ih) (bi_height ih) (bi_bit_count ih))
  end.

End tester.

(** ** Quantities used to state the properties *)

(** The number of passes of the column loop for a bound [bi_width]. *)
Definition pairs_read (bi_width : Z) : nat := Z.to_nat ((to_size_t bi_width + 1) / 2).

(** The number of passes of the row loop. *)
Definition rows_read (bi_height : Z) : nat := Z.to_nat (to_size_t bi_height).

(** The bytes made of the first [n] six-byte groups of [bytes]. *)
Fixpoint pack_pairs (n : nat) (bytes : list byte) : list byte :=
  match n with
  | O => []
  | S k => two_pixels (firstn 6 bytes) :: pack_pairs k (skipn 6 bytes)
  end.

(** The header objects and the stream once [read_headers] is done with the
    file [file]. *)
Definition file_header_read (fh_object ih_object file : list byte) : bitmap_file_header :=
  fst (fst (read_headers fh_object ih_object (ifstream_open file))).

Definition info_header_read (fh_object ih_object file : list byte) : bitmap_info_header :=
  snd (fst (read_headers fh_object ih_object (ifstream_open file))).

Definition pixel_stream (fh_object ih_object file : list byte) : ifstream :=
  snd (read_headers fh_object ih_object (ifstream_open file)).

(** The forty bytes the info header object holds after the two reads. *)
Definition info_header_object (fh_object ih_object file : list byte) : list byte :=
  fst (ifstream_read sizeof_bitmap_info_header ih_object
         (snd (ifstream_read sizeof_bitmap_file_header fh_object (ifstream_open file)))).

(** Quotient rounded up, for the sizes the file format prescribes. *)
Definition ceil_div (a b : Z) : Z := (a + b - 1) / b.

(** The length of a row of the 24-bit input in the file format: [w] pixels of
    three bytes, padded to a multiple of four bytes. *)
Definition input_row_stride (w : Z) : Z := 4 * ceil_div (3 * w) 4.

(** ** Exact distances *)

(** The square of the distance of [color_distance], as an integer. *)
Definition sq_distance (color1 : rgb_triple) (color2 : rgb_quad) : Z :=
  (u8 (rgbBlue color2) - u8 (rgbtBlue color1))
  * (u8 (rgbBlue color2) - u8 (rgbtBlue color1))
  + (u8 (rgbGreen color2) - u8 (rgbtGreen color1))
    * (u8 (rgbGreen color2) - u8 (rgbtGreen color1))
  + (u8 (rgbRed color2) - u8 (rgbtRed color1))
    * (u8 (rgbRed color2) - u8 (rgbtRed color1)).

(** The largest squared distance between two colours. *)
Definition max_sq_distance : Z := 3 * (255 * 255).

(** The [double] square root of the integer [n]. *)
Definition root (n : Z) : float := PrimFloat.sqrt (of_uint63 (Uint63.of_Z n)).

(** The position [min_element] returns when the entries are compared by
    their exact squared distance to [color]. *)
Definition nearest_exact (color : rgb_triple) (palette : list rgb_quad) : nat :=
  utils.min_element
    (fun lhs rhs => sq_distance color lhs <? sq_distance color rhs) palette.

(** [p] holds of [n] consecutive machine integers from [i] on. *)
Fixpoint all_from (n : nat) (i : int) (p : int -> bool) : bool :=
  match n with
  | O => true
  | S n' => if p i then all_from n' (Uint63.succ i) p else false
  end.

(** ** Sample files *)

(** The header objects before anything is read into them, for the runs on
    the sample files. *)
Definition fh_zeroed : list byte := repeat x00 14.
Definition ih_zeroed : list byte := repeat x00 40.

(** The headers of an uncompressed image of the given size and depth. *)
Definition sample_headers (width height bit_count image_size : Z) : list byte :=
  store_file_header
    {| bf_type := 0x4D42; bf_size := 54 + image_size; bf_reserved1 := 0;
       bf_reserved2 := 0; bf_off_bits := 54 |}
  ++ store_info_header
    {| bi_size := 40; bi_width := width; bi_height := height; bi_planes := 1;
       bi_bit_count := bit_count; bi_compression := 0; bi_size_image := image_size;
       bi_x_pels_per_meter := 2835; bi_y_pels_per_meter := 2835;
       bi_clr_used := 0; bi_clr_important := 0 |}.

(** A 2x1 image at 24 bits per pixel: a black pixel, a white pixel and the
    two bytes that pad the row to eight bytes. *)
Definition file_2x1 : list byte :=
  sample_headers 2 1 24 8 ++ [x00; x00; x00; xff; xff; xff; x00; x00].

(** Three rows of two pixels, each with its two padding bytes, and the 2x3
    image at 24 bits per pixel made of them. *)
Definition rows_of_two : list byte :=
  [x00; x00; x00; xff; xff; xff; x01; x02;
   x00; x00; xff; x00; xff; x00; x03; x04;
   xff; x00; x00; x9f; xa1; xa2; x05; x06].

Definition file_2x3 : list byte := sample_headers 2 3 24 24 ++ rows_of_two.

(** A 2x1 image at 32 bits per pixel. *)
Definition file_32_bits : list byte :=
  sample_headers 2 1 32 8 ++ [x00; x00; x00; xff; xff; xff; xff; xff].

(** Headers that give the width -1 and one row, and no pixel data. *)
Definition file_of_width_minus_one : list byte := sample_headers (-1) 1 24 0.

(** A 1x1 image at 24 bits per pixel: one pixel and the byte that pads the
    row to four bytes. *)
Definition file_1x1 : list byte := sample_headers 1 1 24 4 ++ [x10; x20; x30; x00].

(** The streams of the loops on the only row of [file_1x1]. *)
Definition at_row_of_one : streams :=
  {| input_file := pixel_stream fh_zeroed ih_zeroed file_1x1;
     written := written_before_pixels
                  (file_header_read fh_zeroed ih_zeroed file_1x1)
                  (info_header_read fh_zeroed ih_zeroed file_1x1) |}.

(** One row of three pixels followed by its three padding bytes, and the
    streams of the loops positioned on it. *)
Definition row_of_three : list byte :=
  [x00; x00; x00; xff; xff; xff; x00; x00; xff; x01; x02; x03].

Definition at_row_of_three : streams :=
  {| input_file := ifstream_open row_of_three; written := [] |}.

(** ** Quantities used to state further properties *)

(** The bytes a stream can still deliver: none once it has failed. *)
Definition remaining (s : ifstream) : list byte :=
  if good s then unread s else [].

(** The pixel that has the colour of a palette entry. *)
Definition triple_of_quad (q : rgb_quad) : rgb_triple :=
  {| rgbtBlue := rgbBlue q; rgbtGreen := rgbGreen q; rgbtRed := rgbRed q |}.

(** The two pixels of a pair, as the loop body takes them out of it. *)
Definition left_pixel (pixels : list byte) : rgb_triple :=
  load_rgb_triple (field 0 3 pixels).

Definition right_pixel (pixels : list byte) : rgb_triple :=
  load_rgb_triple (field 3 3 pixels).

(** The fields of a header lie in the ranges of their types. *)
Definition file_header_in_range (h : bitmap_file_header) : Prop :=
  0 <= bf_type h < 2 ^ 16 /\ 0 <= bf_size h < 2 ^ 32
  /\ 0 <= bf_reserved1 h < 2 ^ 16 /\ 0 <= bf_reserved2 h < 2 ^ 16
  /\ 0 <= bf_off_bits h < 2 ^ 32.

Definition info_header_in_range (h : bitmap_info_header) : Prop :=
  0 <= bi_size h < 2 ^ 32
  /\ - 2 ^ 31 <= bi_width h < 2 ^ 31 /\ - 2 ^ 31 <= bi_height h < 2 ^ 31
  /\ 0 <= bi_planes h < 2 ^ 16 /\ 0 <= bi_bit_count h < 2 ^ 16
  /\ 0 <= bi_compression h < 2 ^ 32 /\ 0 <= bi_size_image h < 2 ^ 32
  /\ - 2 ^ 31 <= bi_x_pels_per_meter h < 2 ^ 31
  /\ - 2 ^ 31 <= bi_y_pels_per_meter h < 2 ^ 31
  /\ 0 <= bi_clr_used h < 2 ^ 32 /\ 0 <= bi_clr_important h < 2 ^ 32.

(** Headers with every field set, for the round trips. *)
Definition sample_file_header : bitmap_file_header :=
  {| bf_type := 0x4D42; bf_size := 0x12345678; bf_reserved1 := 0xABCD;
     bf_reserved2 := 1; bf_off_bits := 54 |}.

Definition sample_info_header : bitmap_info_header :=
  {| bi_size := 40; bi_width := 640; bi_height := -480; bi_planes := 1;
     bi_bit_count := 24; bi_compression := 0; bi_size_image := 921600;
     bi_x_pels_per_meter := 2835; bi_y_pels_per_meter := -1;
     bi_clr_used := 0; bi_clr_important := 0xFFFFFFFF |}.

(** The pixels of [file_2x1] behind headers that declare a compressed image
    of 70 bytes with its pixel data at offset 1078 and seven colours. *)
Definition file_2x1_other_fields : list byte :=
  store_file_header
    {| bf_type := 0x4D42; bf_size := 70; bf_reserved1 := 9; bf_reserved2 := 8;
       bf_off_bits := 1078 |}
  ++ store_info_header
    {| bi_size := 40; bi_width := 2; bi_height := 1; bi_planes := 1;
       bi_bit_count := 24; bi_compression := 1; bi_size_image := 0;
       bi_x_pels_per_meter := 0; bi_y_pels_per_meter := 0;
       bi_clr_used := 7; bi_clr_important := 7 |}
  ++ [x00; x00; x00; xff; xff; xff; x00; x00].

(** ** Tactics *)

(** Case analysis on the comparisons of exponents and mantissas that the
    order of binary64 values is made of. *)
Ltac compare_cases :=
  repeat match goal with
  | |- context [Z.compare ?a ?b] => destruct (Z.compare_spec a b)
  | |- context [Pos.compare ?a ?b] => destruct (Pos.compare_spec a b)
  | H : context [Z.compare ?a ?b] |- _ => destruct (Z.compare_spec a b)
  | H : context [Pos.compare ?a ?b] |- _ => destruct (Pos.compare_spec a b)
  end.

Ltac order_cases :=
  unfold SFltb, SFcompare;
  change (Pos.compare_cont Eq) with Pos.compare;
  intros; compare_cases; cbn [CompOpp] in *;
  try discriminate; try reflexivity; try lia.

(** * Properties *)

(** ** The pixel loops *)

Lemma to_size_t_range z : 0 <= to_size_t z < 2 ^ 64.
Proof. unfold to_size_t. apply Z.mod_pos_bound. lia. Qed.

Lemma to_size_t_small z : 0 <= z < 2 ^ 64 -> to_size_t z = z.
Proof. intros H. unfold to_size_t. apply Z.mod_small. exact H. Qed.

Lemma iter_step_shift {A : Type} (f : A -> A) (k : nat) (x : A) :
  Nat.iter (S k) f x = Nat.iter k f (f x).
Proof.
  induction k as [|k IH]; [reflexivity|].
  change (Nat.iter (S (S k)) f x) with (f (Nat.iter (S k) f x)).
  rewrite IH. reflexivity.
Qed.

Lemma iter_plus {A : Type} (f : A -> A) (a b : nat) (x : A) :
  Nat.iter (a + b) f x = Nat.iter b f (Nat.iter a f x).
Proof.
  revert x. induction a as [|a IH]; intros x; [reflexivity|].
  change (S a + b)%nat with (S (a + b)).
  rewrite !iter_step_shift. apply IH.
Qed.

(** The column loop makes [k] passes when the bound lies in the last of [k]
    steps of two from [column]. *)
Lemma column_loop_passes (k : nat) :
  forall fuel w column st,
    0 <= column ->
    to_size_t w + 1 < 2 ^ 64 ->
    to_size_t w <= column + 2 * Z.of_nat k ->
    (forall j, 0 <= j < Z.of_nat k -> column + 2 * j < to_size_t w) ->
    (k < fuel)%nat ->
    column_loop fuel w column st = Some (Nat.iter k column_step st).
Proof.
  induction k as [|k IH]; intros fuel w column st Hc Hw Hle Hlt Hf.
  - destruct fuel as [|fuel]; [lia|]. simpl.
    destruct (Z.ltb_spec column (to_size_t w)); [lia|reflexivity].
  - destruct fuel as [|fuel]; [lia|].
    cbn [column_loop].
    assert (Hin : column < to_size_t w) by (specialize (Hlt 0); lia).
    destruct (Z.ltb_spec column (to_size_t w)); [|lia].
    rewrite to_size_t_small by lia.
    rewrite iter_step_shift.
    apply IH; try lia.
    intros j Hj. specialize (Hlt (j + 1)). lia.
Qed.

Lemma column_loop_terminates fuel w st :
  to_size_t w + 1 < 2 ^ 64 ->
  (pairs_read w < fuel)%nat ->
  column_loop fuel w 0 st = Some (Nat.iter (pairs_read w) column_step st).
Proof.
  intros Hw Hf. pose proof (to_size_t_range w) as Hr.
  apply column_loop_passes; try lia; unfold pairs_read.
  - rewrite Z2Nat.id by (apply Z.div_pos; lia).
    pose proof (Z.div_mod (to_size_t w + 1) 2 ltac:(lia)).
    pose proof (Z.mod_pos_bound (to_size_t w + 1) 2 ltac:(lia)). lia.
  - intros j. rewrite Z2Nat.id by (apply Z.div_pos; lia). intros Hj.
    pose proof (Z.div_mod (to_size_t w + 1) 2 ltac:(lia)).
    pose proof (Z.mod_pos_bound (to_size_t w + 1) 2 ltac:(lia)). lia.
Qed.

Lemma row_loop_passes (k : nat) :
  forall fuel w h row st,
    to_size_t w + 1 < 2 ^ 64 ->
    0 <= row ->
    to_size_t h = row + Z.of_nat k ->
    (k + pairs_read w < fuel)%nat ->
    row_loop fuel w h row st
    = Some (Nat.iter (k * pairs_read w) column_step st).
Proof.
  induction k as [|k IH]; intros fuel w h row st Hw Hr Hh Hf.
  - destruct fuel as [|fuel]; [lia|]. cbn [row_loop].
    destruct (Z.ltb_spec row (to_size_t h)); [lia|reflexivity].
  - destruct fuel as [|fuel]; [lia|]. cbn [row_loop].
    destruct (Z.ltb_spec row (to_size_t h)); [|lia].
    rewrite column_loop_terminates by lia.
    pose proof (to_size_t_range h).
    rewrite to_size_t_small by lia.
    rewrite (IH fuel w h (row + 1)) by lia.
    change (S k * pairs_read w)%nat with (pairs_read w + k * pairs_read w)%nat.
    rewrite iter_plus. reflexivity.
Qed.

Lemma row_loop_terminates fuel w h st :
  to_size_t w + 1 < 2 ^ 64 ->
  (rows_read h + pairs_read w < fuel)%nat ->
  row_loop fuel w h 0 st
  = Some (Nat.iter (rows_read h * pairs_read w) column_step st).
Proof.
  intros Hw Hf. apply row_loop_passes; try lia.
  unfold rows_read. pose proof (to_size_t_range h). lia.
Qed.

Lemma ifstream_read_enough n dest s :
  good s = true -> (n <= length (unread s))%nat ->
  ifstream_read n dest s
  = (firstn n (unread s), {| unread := skipn n (unread s); good := true |}).
Proof.
  intros Hg Hn. unfold ifstream_read. rewrite Hg.
  destruct (Nat.leb_spec n (length (unread s))); [reflexivity|lia].
Qed.

(** With [6 * k] bytes left on a good stream, [k] passes extract exactly
    those bytes and append one byte per group of six. *)
Lemma column_steps_enough (k : nat) :
  forall st,
    good (input_file st) = true ->
    (6 * k <= length (unread (input_file st)))%nat ->
    Nat.iter k column_step st
    = {| input_file := {| unread := skipn (6 * k) (unread (input_file st));
                          good := true |};
         written := written st ++ pack_pairs k (unread (input_file st)) |}.
Proof.
  induction k as [|k IH]; intros [[bytes g] out] Hg Hlen; cbn in Hg, Hlen; subst g.
  - cbn. rewrite app_nil_r. reflexivity.
  - rewrite iter_step_shift.
    unfold column_step at 2. cbn [input_file written].
    rewrite ifstream_read_enough by (cbn; lia || reflexivity).
    cbn [unread].
    rewrite IH; cbn [input_file written unread good].
    + rewrite skipn_skipn. replace (6 * k + 6)%nat with (6 * S k)%nat by lia.
      cbn [pack_pairs]. rewrite <- app_assoc. reflexivity.
    + reflexivity.
    + rewrite length_skipn. lia.
Qed.

Lemma pack_pairs_length n bytes : length (pack_pairs n bytes) = n.
Proof. revert bytes. induction n; intros; cbn; [reflexivity|]. rewrite IHn. reflexivity. Qed.

Lemma column_steps_written (k : nat) :
  forall st, length (written (Nat.iter k column_step st)) = (length (written st) + k)%nat.
Proof.
  induction k as [|k IH]; intros st; [cbn; lia|].
  rewrite iter_step_shift, IH. unfold column_step.
  destruct (ifstream_read 6 fresh_pixels (input_file st)) as [p s'].
  cbn. rewrite length_app. cbn. lia.
Qed.

(** ** Bytes *)

Lemma u8_range b : 0 <= u8 b < 256.
Proof.
  unfold u8. pose proof (Byte.to_N_bounded b) as H.
  split; [apply N2Z.is_nonneg|]. lia.
Qed.

Lemma byte_of_u8 b : byte_of_Z (u8 b) = b.
Proof.
  unfold byte_of_Z, to_uint8. rewrite Z.mod_small by (change (2 ^ 8) with 256; apply u8_range).
  unfold u8. rewrite N2Z.id, Byte.of_to_N. reflexivity.
Qed.

Lemma u8_of_Z z : u8 (byte_of_Z z) = z mod 256.
Proof.
  unfold byte_of_Z, to_uint8. change (2 ^ 8) with 256.
  pose proof (Z.mod_pos_bound z 256 ltac:(lia)) as Hr.
  destruct (Byte.of_N (Z.to_N (z mod 256))) as [b|] eqn:E.
  - apply Byte.to_of_N in E. unfold u8. rewrite E. lia.
  - apply Byte.of_N_None_iff in E. lia.
Qed.

Lemma u8_inj a b : u8 a = u8 b -> a = b.
Proof. intros H. rewrite <- (byte_of_u8 a), <- (byte_of_u8 b), H. reflexivity. Qed.

Lemma byte_of_Z_mod z : byte_of_Z (z mod 256) = byte_of_Z z.
Proof.
  unfold byte_of_Z, to_uint8. change (2 ^ 8) with 256.
  rewrite Z.mod_mod by lia. reflexivity.
Qed.

Lemma cons_mod_256 a r : 0 <= a < 256 -> (a + 256 * r) mod 256 = a.
Proof.
  intros Ha. replace (256 * r) with (r * 256) by lia.
  rewrite Z.mod_add by lia. apply Z.mod_small. exact Ha.
Qed.

Lemma cons_div_256 a r : 0 <= a < 256 -> (a + 256 * r) / 256 = r.
Proof.
  intros Ha. replace (256 * r) with (r * 256) by lia.
  rewrite Z.div_add by lia. rewrite Z.div_small by exact Ha. lia.
Qed.

Lemma le_uint_range bs : 0 <= le_uint bs < 256 ^ Z.of_nat (length bs).
Proof.
  induction bs as [|b bs IH]; [cbn; lia|].
  cbn [le_uint length]. rewrite Nat2Z.inj_succ, Z.pow_succ_r by lia.
  pose proof (u8_range b). lia.
Qed.

(** Storing the value loaded from [n] bytes gives the bytes back. *)
Lemma le_bytes_le_uint bs : le_bytes (length bs) (le_uint bs) = bs.
Proof.
  induction bs as [|b bs IH]; [reflexivity|].
  cbn [length le_bytes le_uint]. pose proof (u8_range b) as Hb.
  f_equal.
  - rewrite <- byte_of_Z_mod, cons_mod_256 by exact Hb. apply byte_of_u8.
  - rewrite cons_div_256 by exact Hb. exact IH.
Qed.

(** The bytes of an integer depend on it modulo [256 ^ n] only. *)
Lemma le_bytes_mod n : forall z, le_bytes n (z mod 256 ^ Z.of_nat n) = le_bytes n z.
Proof.
  induction n as [|n IH]; intros z; [reflexivity|].
  cbn [le_bytes]. rewrite Nat2Z.inj_succ, Z.pow_succ_r by lia.
  assert (Hp : 0 < 256 ^ Z.of_nat n) by (apply Z.pow_pos_nonneg; lia).
  pose proof (Z.mod_pos_bound z 256 ltac:(lia)) as Hz.
  rewrite Z.rem_mul_r by lia.
  f_equal.
  - rewrite <- (byte_of_Z_mod z), <- (byte_of_Z_mod (_ + _)).
    rewrite cons_mod_256 by exact Hz. reflexivity.
  - rewrite cons_div_256 by exact Hz. apply IH.
Qed.

Lemma le_bytes_to_int32 z : le_bytes 4 (to_int32 z) = le_bytes 4 z.
Proof.
  rewrite <- (le_bytes_mod 4 (to_int32 z)), <- (le_bytes_mod 4 z). f_equal.
  unfold to_int32. change (256 ^ Z.of_nat 4) with (2 ^ 32).
  rewrite Zminus_mod, Zmod_mod, <- Zminus_mod. f_equal. lia.
Qed.

Lemma field_length off len (m : list byte) :
  (off + len <= length m)%nat -> length (field off len m) = len.
Proof. intros H. unfold field. rewrite length_firstn, length_skipn. lia. Qed.

Lemma firstn_plus {A : Type} (a b : nat) :
  forall l : list A, firstn a l ++ firstn b (skipn a l) = firstn (a + b) l.
Proof.
  induction a as [|a IH]; intros l; [reflexivity|].
  destruct l as [|x l]; cbn.
  - rewrite firstn_nil. reflexivity.
  - f_equal. apply IH.
Qed.

Lemma field_app off a b (m : list byte) :
  field off a m ++ field (off + a) b m = field off (a + b) m.
Proof.
  unfold field. rewrite (Nat.add_comm off a), <- skipn_skipn.
  apply firstn_plus.
Qed.

(** ** Header object representations *)

Lemma store_load_unsigned off len (m : list byte) :
  (off + len <= length m)%nat ->
  le_bytes len (le_uint (field off len m)) = field off len m.
Proof.
  intros H. rewrite <- (field_length off len m H) at 1. apply le_bytes_le_uint.
Qed.

Lemma store_load_signed off (m : list byte) :
  (off + 4 <= length m)%nat ->
  le_bytes 4 (to_int32 (le_uint (field off 4 m))) = field off 4 m.
Proof. intros H. rewrite le_bytes_to_int32. apply store_load_unsigned. exact H. Qed.

Lemma field_all (m : list byte) : field 0 (length m) m = m.
Proof. unfold field. cbn [skipn]. apply firstn_all. Qed.

(** Writing a header that was read gives back the forty bytes read. *)
Lemma store_load_info_header (m : list byte) :
  length m = 40%nat -> store_info_header (load_info_header m) = m.
Proof.
  intros Hm. unfold store_info_header, load_info_header.
  cbn [bi_size bi_width bi_height bi_planes bi_bit_count bi_compression
       bi_size_image bi_x_pels_per_meter bi_y_pels_per_meter bi_clr_used
       bi_clr_important].
  rewrite !store_load_signed, !store_load_unsigned by lia.
  rewrite !field_app. cbn [Nat.add]. rewrite <- Hm. apply field_all.
Qed.

(** Writing the updated header gives the bytes read, except the two bytes of
    the bit count. *)
Lemma store_update_info_header (m : list byte) :
  length m = 40%nat ->
  store_info_header (update_info_header (load_info_header m))
  = field 0 14 m ++ [x04; x00] ++ field 16 24 m.
Proof.
  intros Hm. unfold store_info_header, update_info_header, load_info_header.
  cbn [bi_size bi_width bi_height bi_planes bi_bit_count bi_compression
       bi_size_image bi_x_pels_per_meter bi_y_pels_per_meter bi_clr_used
       bi_clr_important].
  rewrite !store_load_signed, !store_load_unsigned by lia.
  change (le_bytes 2 (to_uint16 constants.target_bitcount)) with [x04; x00].
  rewrite <- (field_app 0 4 10), <- (field_app 4 4 6), <- (field_app 8 4 2).
  rewrite <- (field_app 16 4 20), <- (field_app 20 4 16), <- (field_app 24 4 12),
          <- (field_app 28 4 8), <- (field_app 32 4 4).
  cbn [Nat.add]. rewrite <- !app_assoc. reflexivity.
Qed.

(** Both headers of a file of at least 54 bytes are read whole. *)
Lemma read_headers_whole fh_object ih_object (file : list byte) :
  (54 <= length file)%nat ->
  read_headers fh_object ih_object (ifstream_open file)
  = (load_file_header (field 0 14 file), load_info_header (field 14 40 file),
     {| unread := skipn 54 file; good := true |}).
Proof.
  intros H.
  unfold read_headers, ifstream_open, sizeof_bitmap_file_header,
    sizeof_bitmap_info_header.
  rewrite ifstream_read_enough; [|reflexivity|cbn [unread]; lia].
  cbn [unread good].
  rewrite ifstream_read_enough;
    [|reflexivity|cbn [unread]; rewrite length_skipn; lia].
  cbn [unread]. rewrite skipn_skipn. reflexivity.
Qed.

(** ** Rejected inputs *)

Lemma read_headers_eq fh_object ih_object file :
  read_headers fh_object ih_object (ifstream_open file)
  = (file_header_read fh_object ih_object file,
     info_header_read fh_object ih_object file,
     pixel_stream fh_object ih_object file).
Proof.
  unfold file_header_read, info_header_read, pixel_stream.
  destruct (read_headers fh_object ih_object (ifstream_open file)) as [[fh ih] s].
  reflexivity.
Qed.

Lemma info_header_read_eq fh_object ih_object file :
  info_header_read fh_object ih_object file
  = load_info_header (info_header_object fh_object ih_object file).
Proof.
  unfold info_header_read, info_header_object, read_headers.
  destruct (ifstream_read sizeof_bitmap_file_header fh_object (ifstream_open file))
    as [fh_bytes s1].
  cbn [snd].
  destruct (ifstream_read sizeof_bitmap_info_header ih_object s1) as [ih_bytes s2].
  reflexivity.
Qed.

(** The converter, once the headers are read. *)
Lemma convert_unfold fuel file output_opens fh_object ih_object :
  convert_bmp_24_to_4_depth fuel (Some file) output_opens fh_object ih_object
  = let fh := file_header_read fh_object ih_object file in
    let ih := info_header_read fh_object ih_object file in
    if negb (bf_type fh =? constants.BMP_SIGNATURE)
    then Some (failure File_is_not_a_BMP_file)
    else if negb (bi_bit_count ih =? 24)
    then Some (failure File_has_not_24_bits_per_pixel)
    else if negb output_opens
    then Some (failure Failed_to_open_output_file)
    else
      match row_loop fuel (bi_width ih) (bi_height ih) 0
              {| input_file := pixel_stream fh_object ih_object file;
                 written := written_before_pixels fh ih |} with
      | Some st => Some {| cerr := None; output_file := Some (written st) |}
      | None => None
      end.
Proof.
  unfold convert_bmp_24_to_4_depth. rewrite read_headers_eq. reflexivity.
Qed.

Lemma tester_unfold file fh_object ih_object :
  tester.main (Some file) fh_object ih_object
  = let fh := file_header_read fh_object ih_object file in
    let ih := info_header_read fh_object ih_object file in
    if negb (bf_type fh =? tester.bmp_signature)
    then (tester.EXIT_FAILURE, tester.File_is_not_a_BMP_file)
    else (tester.EXIT_SUCCESS,
          tester.Dimensions (bi_width ih) (bi_height ih) (bi_bit_count ih)).
Proof.
  unfold tester.main. rewrite read_headers_eq. reflexivity.
Qed.

(** The signature field is made of the first two bytes of the file, however
    short the file is. *)
Lemma bf_type_first_two_bytes fh_object ih_object b0 b1 rest :
  bf_type (file_header_read fh_object ih_object (b0 :: b1 :: rest))
  = u8 b0 + 256 * u8 b1.
Proof.
  unfold file_header_read, read_headers, ifstream_open, ifstream_read at 1.
  cbn [good unread].
  destruct (sizeof_bitmap_file_header <=? length (b0 :: b1 :: rest))%nat.
  - destruct (ifstream_read _ _ _) as [ih_bytes s2].
    cbn [fst snd load_file_header bf_type field skipn firstn
         sizeof_bitmap_file_header le_uint]. lia.
  - destruct (ifstream_read _ _ _) as [ih_bytes s2].
    cbn [fst snd load_file_header bf_type field skipn firstn app le_uint]. lia.
Qed.

Lemma signature_bytes b0 b1 :
  u8 b0 + 256 * u8 b1 = 0x4D42 -> b0 = x42 /\ b1 = x4d.
Proof.
  intros H. pose proof (u8_range b0). pose proof (u8_range b1).
  split; apply u8_inj; [change (u8 x42) with 66|change (u8 x4d) with 77]; lia.
Qed.

(** C6: a file whose first two bytes are not 0x42 0x4D makes both programs
    fail with "is not a BMP file": the tester exits with [EXIT_FAILURE], and
    the converter returns before the output stream is constructed, so that
    no output file is created, whatever the rest of the file holds. *)
Theorem signature_rejected (b0 b1 : byte) (rest : list byte)
    (fuel : nat) (output_opens : bool) (fh_object ih_object : list byte) :
  (b0, b1) <> (x42, x4d) ->
  convert_bmp_24_to_4_depth fuel (Some (b0 :: b1 :: rest)) output_opens
    fh_object ih_object
  = Some {| cerr := Some File_is_not_a_BMP_file; output_file := None |}
  /\ tester.main (Some (b0 :: b1 :: rest)) fh_object ih_object
     = (tester.EXIT_FAILURE, tester.File_is_not_a_BMP_file).
Proof.
  intros Hsig.
  assert (Hne : (bf_type (file_header_read fh_object ih_object (b0 :: b1 :: rest))
                 =? 0x4D42) = false).
  { apply Z.eqb_neq. rewrite bf_type_first_two_bytes. intros H.
    apply signature_bytes in H. destruct H; subst. apply Hsig. reflexivity. }
  split.
  - rewrite convert_unfold. cbv zeta.
    unfold constants.BMP_SIGNATURE. rewrite Hne. reflexivity.
  - rewrite tester_unfold. cbv zeta.
    unfold tester.bmp_signature. rewrite Hne. reflexivity.
Qed.

Lemma signature_rejected_witness :
  convert_bmp_24_to_4_depth 0 (Some [x50; x4b; x03; x04]) true [] []
  = Some {| cerr := Some File_is_not_a_BMP_file; output_file := None |}
  /\ tester.main (Some [x50; x4b; x03; x04]) [] []
     = (tester.EXIT_FAILURE, tester.File_is_not_a_BMP_file).
Proof.
  apply (signature_rejected x50 x4b [x03; x04] 0 true [] []).
  discriminate.
Defined.

(** C7: when the bit count read from the file is not 24 the converter fails
    and no output file is created, whether or not the output could be opened:
    with "has not 24 bits per pixel" when the signature is the BMP one (the
    signature is checked first, and a file that fails both checks is reported
    as not being a BMP file). *)
Theorem depth_rejected (file : list byte)
    (fuel : nat) (output_opens : bool) (fh_object ih_object : list byte) :
  bi_bit_count (info_header_read fh_object ih_object file) <> 24 ->
  convert_bmp_24_to_4_depth fuel (Some file) output_opens fh_object ih_object
  = Some {| cerr :=
              Some (if bf_type (file_header_read fh_object ih_object file)
                       =? constants.BMP_SIGNATURE
                    then File_has_not_24_bits_per_pixel
                    else File_is_not_a_BMP_file);
            output_file := None |}.
Proof.
  intros Hbits. rewrite convert_unfold. cbv zeta.
  destruct (bf_type _ =? constants.BMP_SIGNATURE); cbn [negb]; [|reflexivity].
  apply Z.eqb_neq in Hbits. rewrite Hbits. reflexivity.
Qed.

Lemma depth_rejected_witness :
  convert_bmp_24_to_4_depth 0 (Some file_32_bits) true fh_zeroed ih_zeroed
  = Some {| cerr :=
              Some (if bf_type (file_header_read fh_zeroed ih_zeroed file_32_bits)
                       =? constants.BMP_SIGNATURE
                    then File_has_not_24_bits_per_pixel
                    else File_is_not_a_BMP_file);
            output_file := None |}.
Proof.
  apply (depth_rejected file_32_bits 0 true fh_zeroed ih_zeroed).
  vm_compute. discriminate.
Defined.

(** ** Accepted inputs *)

Lemma to_int32_range z : - 2 ^ 31 <= to_int32 z < 2 ^ 31.
Proof.
  unfold to_int32. pose proof (Z.mod_pos_bound (z + 2 ^ 31) (2 ^ 32) ltac:(lia)). lia.
Qed.

Lemma bi_width_range fh_object ih_object file :
  - 2 ^ 31 <= bi_width (info_header_read fh_object ih_object file) < 2 ^ 31.
Proof. rewrite info_header_read_eq. apply to_int32_range. Qed.

Lemma bi_height_range fh_object ih_object file :
  - 2 ^ 31 <= bi_height (info_header_read fh_object ih_object file) < 2 ^ 31.
Proof. rewrite info_header_read_eq. apply to_int32_range. Qed.

(** Every [int] bound but [-1] stops the column loop. *)
Lemma column_bound_reached w :
  - 2 ^ 31 <= w < 2 ^ 31 -> w <> -1 -> to_size_t w + 1 < 2 ^ 64.
Proof.
  intros Hr Hw. unfold to_size_t.
  destruct (Z.lt_ge_cases w 0).
  - replace w with (w + 2 ^ 64 + (-1) * 2 ^ 64) by lia.
    rewrite Z.mod_add by lia. rewrite Z.mod_small; lia.
  - rewrite Z.mod_small; lia.
Qed.

(** The value of a call that passes the three checks. *)
Lemma convert_accepted fuel file fh_object ih_object :
  let fh := file_header_read fh_object ih_object file in
  let ih := info_header_read fh_object ih_object file in
  bf_type fh = constants.BMP_SIGNATURE ->
  bi_bit_count ih = 24 ->
  bi_width ih <> -1 ->
  (rows_read (bi_height ih) + pairs_read (bi_width ih) < fuel)%nat ->
  convert_bmp_24_to_4_depth fuel (Some file) true fh_object ih_object
  = Some {| cerr := None;
            output_file :=
              Some (written
                      (Nat.iter (rows_read (bi_height ih) * pairs_read (bi_width ih))
                         column_step
                         {| input_file := pixel_stream fh_object ih_object file;
                            written := written_before_pixels fh ih |})) |}.
Proof.
  intros fh ih Hsig Hbits Hw Hfuel. rewrite convert_unfold. cbv zeta.
  fold fh ih. rewrite Hsig, Hbits, !Z.eqb_refl. cbn [negb].
  rewrite row_loop_terminates; [reflexivity| |exact Hfuel].
  apply column_bound_reached; [apply bi_width_range|exact Hw].
Qed.

Lemma column_steps_prefix (k : nat) :
  forall st, exists tail, written (Nat.iter k column_step st) = written st ++ tail.
Proof.
  induction k as [|k IH]; intros st.
  - exists []. cbn. rewrite app_nil_r. reflexivity.
  - rewrite iter_step_shift. destruct (IH (column_step st)) as [tail Ht].
    rewrite Ht. unfold column_step.
    destruct (ifstream_read 6 fresh_pixels (input_file st)) as [p s'].
    cbn [written]. rewrite <- app_assoc. eexists. reflexivity.
Qed.

Lemma le_bytes_length n z : length (le_bytes n z) = n.
Proof. revert z. induction n; intros z; cbn; [reflexivity|]. rewrite IHn. reflexivity. Qed.

Lemma store_file_header_length h : length (store_file_header h) = 14%nat.
Proof. unfold store_file_header. rewrite !length_app, !le_bytes_length. reflexivity. Qed.

Lemma store_info_header_length h : length (store_info_header h) = 40%nat.
Proof. unfold store_info_header. rewrite !length_app, !le_bytes_length. reflexivity. Qed.

(** The info header lies at bytes 14..53 of whatever starts with the headers. *)
Lemma field_info_header fh ih tail :
  field 14 40 (written_before_pixels fh ih ++ tail)
  = store_info_header (update_info_header ih).
Proof.
  unfold written_before_pixels, field.
  rewrite <- !app_assoc.
  rewrite skipn_app, store_file_header_length, Nat.sub_diag.
  rewrite skipn_all2 by (rewrite store_file_header_length; lia).
  cbn [skipn app].
  rewrite firstn_app, store_info_header_length, Nat.sub_diag.
  rewrite firstn_all2 by (rewrite store_info_header_length; lia).
  cbn [firstn]. apply app_nil_r.
Qed.

Lemma ifstream_read_length n dest s :
  length dest = n -> length (fst (ifstream_read n dest s)) = n.
Proof.
  intros Hd. unfold ifstream_read. destruct (good s); [|exact Hd].
  destruct (Nat.leb_spec n (length (unread s))); cbn [fst].
  - rewrite length_firstn. lia.
  - rewrite length_app, length_skipn. lia.
Qed.

Lemma info_header_object_length fh_object ih_object file :
  length ih_object = 40%nat ->
  length (info_header_object fh_object ih_object file) = 40%nat.
Proof. intros H. apply ifstream_read_length. exact H. Qed.

Lemma field_app_l off len (a b : list byte) :
  (off + len <= length a)%nat -> field off len (a ++ b) = field off len a.
Proof.
  intros H. unfold field. rewrite skipn_app, firstn_app, length_skipn.
  replace (len - (length a - off))%nat with 0%nat by lia.
  cbn [firstn]. apply app_nil_r.
Qed.

Lemma field_app_r off len (a b : list byte) :
  (length a <= off)%nat -> field off len (a ++ b) = field (off - length a) len b.
Proof.
  intros H. unfold field. rewrite skipn_app.
  rewrite skipn_all2 by exact H. reflexivity.
Qed.

Lemma field_field o n off len (m : list byte) :
  (off + len <= n)%nat -> field off len (field o n m) = field (o + off) len m.
Proof.
  intros H. unfold field.
  rewrite skipn_firstn_comm, firstn_firstn, skipn_skipn.
  replace (Nat.min len (n - off)) with len by lia.
  rewrite (Nat.add_comm off o). reflexivity.
Qed.

(** A field of the rewritten header that does not overlap its bytes 14 and
    15 is the field of the header read. *)
Lemma field_outside_bit_count off len (m : list byte) :
  length m = 40%nat ->
  (off + len <= 14 \/ 16 <= off /\ off + len <= 40)%nat ->
  field off len (field 0 14 m ++ [x04; x00] ++ field 16 24 m) = field off len m.
Proof.
  intros Hm [H|[H1 H2]].
  - rewrite field_app_l by (rewrite field_length; lia).
    rewrite field_field by lia. reflexivity.
  - rewrite field_app_r by (rewrite field_length; lia).
    rewrite field_length by lia.
    rewrite field_app_r by (cbn [length]; lia). cbn [length].
    rewrite field_field by lia. f_equal. lia.
Qed.

Lemma load_updated_info_header (m : list byte) :
  length m = 40%nat ->
  load_info_header (field 0 14 m ++ [x04; x00] ++ field 16 24 m)
  = update_info_header (load_info_header m).
Proof.
  intros Hm. unfold load_info_header at 1.
  replace (field 14 2 (field 0 14 m ++ [x04; x00] ++ field 16 24 m)) with [x04; x00].
  - rewrite !(field_outside_bit_count _ _ m Hm) by lia. reflexivity.
  - rewrite field_app_r by (rewrite field_length; lia).
    rewrite field_length by lia. reflexivity.
Qed.

(** C8: on an accepted file the loops finish and the forty bytes written for
    the info header are the forty bytes read, except bytes 14 and 15, the bit
    count, which hold 4.  Read back, the written header has the width,
    height, planes, compression, image size, resolutions and colour counts of
    the input unchanged: the image size is not recomputed. *)
Theorem info_header_written (file fh_object ih_object : list byte) :
  length ih_object = 40%nat ->
  bf_type (file_header_read fh_object ih_object file) = constants.BMP_SIGNATURE ->
  bi_bit_count (info_header_read fh_object ih_object file) = 24 ->
  bi_width (info_header_read fh_object ih_object file) <> -1 ->
  exists fuel0 : nat, forall fuel : nat, (fuel0 <= fuel)%nat ->
  exists out : list byte,
    convert_bmp_24_to_4_depth fuel (Some file) true fh_object ih_object
    = Some {| cerr := None; output_file := Some out |}
    /\ field 14 40 out
       = field 0 14 (info_header_object fh_object ih_object file)
         ++ [x04; x00]
         ++ field 16 24 (info_header_object fh_object ih_object file)
    /\ let ih := info_header_read fh_object ih_object file in
       let ih' := load_info_header (field 14 40 out) in
       bi_bit_count ih' = 4
       /\ bi_size ih' = bi_size ih
       /\ bi_width ih' = bi_width ih
       /\ bi_height ih' = bi_height ih
       /\ bi_planes ih' = bi_planes ih
       /\ bi_compression ih' = bi_compression ih
       /\ bi_size_image ih' = bi_size_image ih
       /\ bi_x_pels_per_meter ih' = bi_x_pels_per_meter ih
       /\ bi_y_pels_per_meter ih' = bi_y_pels_per_meter ih
       /\ bi_clr_used ih' = bi_clr_used ih
       /\ bi_clr_important ih' = bi_clr_important ih.
Proof.
  intros Hobj Hsig Hbits Hw.
  exists (S (rows_read (bi_height (info_header_read fh_object ih_object file))
             + pairs_read (bi_width (info_header_read fh_object ih_object file)))).
  intros fuel Hfuel.
  eexists. split.
  { apply convert_accepted; [exact Hsig|exact Hbits|exact Hw|lia]. }
  pose proof (info_header_object_length fh_object ih_object file Hobj) as Hlen.
  match goal with |- context [written (Nat.iter ?k column_step ?st)] =>
    destruct (column_steps_prefix k st) as [tail Ht]; rewrite Ht end.
  cbn [written]. rewrite field_info_header, !info_header_read_eq.
  rewrite store_update_info_header by exact Hlen.
  split; [reflexivity|].
  cbv zeta. rewrite load_updated_info_header by exact Hlen.
  repeat (split; [reflexivity|]). reflexivity.
Qed.

Lemma info_header_written_witness :
  exists fuel0 : nat, forall fuel : nat, (fuel0 <= fuel)%nat ->
  exists out : list byte,
    convert_bmp_24_to_4_depth fuel (Some file_2x1) true fh_zeroed ih_zeroed
    = Some {| cerr := None; output_file := Some out |}
    /\ field 14 40 out
       = field 0 14 (info_header_object fh_zeroed ih_zeroed file_2x1)
         ++ [x04; x00]
         ++ field 16 24 (info_header_object fh_zeroed ih_zeroed file_2x1)
    /\ let ih := info_header_read fh_zeroed ih_zeroed file_2x1 in
       let ih' := load_info_header (field 14 40 out) in
       bi_bit_count ih' = 4
       /\ bi_size ih' = bi_size ih
       /\ bi_width ih' = bi_width ih
       /\ bi_height ih' = bi_height ih
       /\ bi_planes ih' = bi_planes ih
       /\ bi_compression ih' = bi_compression ih
       /\ bi_size_image ih' = bi_size_image ih
       /\ bi_x_pels_per_meter ih' = bi_x_pels_per_meter ih
       /\ bi_y_pels_per_meter ih' = bi_y_pels_per_meter ih
       /\ bi_clr_used ih' = bi_clr_used ih
       /\ bi_clr_important ih' = bi_clr_important ih.
Proof.
  apply (info_header_written file_2x1 fh_zeroed ih_zeroed).
  - reflexivity.
  - vm_compute. reflexivity.
  - vm_compute. reflexivity.
  - vm_compute. discriminate.
Defined.

(** ** What the loops consume *)

Lemma pairs_read_nonneg w :
  0 <= w < 2 ^ 31 -> Z.of_nat (pairs_read w) = (w + 1) / 2.
Proof.
  intros Hw. unfold pairs_read. rewrite to_size_t_small by lia.
  apply Z2Nat.id. apply Z.div_pos; lia.
Qed.

Lemma rows_read_nonneg h : 0 <= h < 2 ^ 31 -> Z.of_nat (rows_read h) = h.
Proof.
  intros Hh. unfold rows_read. rewrite to_size_t_small by lia. apply Z2Nat.id. lia.
Qed.

Lemma pack_pairs_app (a b : nat) :
  forall l, pack_pairs (a + b) l = pack_pairs a l ++ pack_pairs b (skipn (6 * a) l).
Proof.
  induction a as [|a IH]; intros l; [reflexivity|].
  cbn [Nat.add pack_pairs app]. f_equal. rewrite IH, skipn_skipn.
  replace (6 * a + 6)%nat with (6 * S a)%nat by lia. reflexivity.
Qed.

(** [h] rows of [n] pairs each: row [r] is made of the bytes at offset
    [6 * n * r]. *)
Lemma pack_pairs_rows (n h : nat) (l : list byte) :
  pack_pairs (h * n) l
  = flat_map (fun r => pack_pairs n (skipn (6 * n * r) l)) (seq 0 h).
Proof.
  induction h as [|h IH]; [reflexivity|].
  rewrite seq_S, flat_map_app. cbn [flat_map Nat.add]. rewrite app_nil_r.
  replace (S h * n)%nat with (h * n + n)%nat by lia.
  rewrite pack_pairs_app, IH.
  replace (6 * (h * n))%nat with (6 * n * h)%nat by lia. reflexivity.
Qed.

(** C5, amended: for an odd width [w] the column loop makes [(w + 1) / 2]
    passes, each one [read] of a pair of three-byte pixels followed by the
    write of one byte.  On a stream that still holds them the passes extract
    [3 * (w + 1)] bytes, which is [w + 1] pixels, one more than the row
    has. *)
Theorem odd_width_reads_one_pixel_more (w : Z) (fuel : nat) (st : streams) :
  0 < w < 2 ^ 31 ->
  Z.odd w = true ->
  (pairs_read w < fuel)%nat ->
  exists passes : nat,
    2 * Z.of_nat passes = w + 1
    /\ column_loop fuel w 0 st = Some (Nat.iter passes column_step st)
    /\ length (written (Nat.iter passes column_step st))
       = (length (written st) + passes)%nat
    /\ (good (input_file st) = true ->
        3 * (w + 1) <= Z.of_nat (length (unread (input_file st))) ->
        input_file (Nat.iter passes column_step st)
        = {| unread := skipn (Z.to_nat (3 * (w + 1))) (unread (input_file st));
             good := true |}
        /\ Z.of_nat (length (unread (input_file (Nat.iter passes column_step st))))
           = Z.of_nat (length (unread (input_file st))) - 3 * w - 3
        /\ written (Nat.iter passes column_step st)
           = written st ++ pack_pairs passes (unread (input_file st))).
Proof.
  intros Hw Hodd Hfuel.
  pose proof (pairs_read_nonneg w ltac:(lia)) as Hp.
  assert (Hhalf : 2 * ((w + 1) / 2) = w + 1).
  { rewrite (Zodd_div2 w) at 2 by (apply Zodd_bool_iff; exact Hodd).
    rewrite (Zodd_div2 w) at 1 by (apply Zodd_bool_iff; exact Hodd).
    replace (2 * Z.div2 w + 1 + 1) with ((Z.div2 w + 1) * 2) by lia.
    rewrite Z.div_mul by lia. lia. }
  exists (pairs_read w). rewrite Hp.
  split; [exact Hhalf|].
  split.
  { apply column_loop_terminates; [rewrite to_size_t_small; lia|exact Hfuel]. }
  split; [apply column_steps_written|].
  intros Hgood Hlen.
  rewrite column_steps_enough by (exact Hgood || lia).
  cbn [input_file written unread].
  replace (Z.to_nat (3 * (w + 1))) with (6 * pairs_read w)%nat by lia.
  split; [reflexivity|].
  split; [rewrite length_skipn; lia|reflexivity].
Qed.

Lemma odd_width_reads_one_pixel_more_witness :
  exists passes : nat,
    2 * Z.of_nat passes = 3 + 1
    /\ column_loop 3 3 0 at_row_of_three
       = Some (Nat.iter passes column_step at_row_of_three)
    /\ length (written (Nat.iter passes column_step at_row_of_three))
       = (length (written at_row_of_three) + passes)%nat
    /\ (good (input_file at_row_of_three) = true ->
        3 * (3 + 1) <= Z.of_nat (length (unread (input_file at_row_of_three))) ->
        input_file (Nat.iter passes column_step at_row_of_three)
        = {| unread := skipn (Z.to_nat (3 * (3 + 1)))
                         (unread (input_file at_row_of_three));
             good := true |}
        /\ Z.of_nat (length (unread (input_file
                                      (Nat.iter passes column_step at_row_of_three))))
           = Z.of_nat (length (unread (input_file at_row_of_three))) - 3 * 3 - 3
        /\ written (Nat.iter passes column_step at_row_of_three)
           = written at_row_of_three
             ++ pack_pairs passes (unread (input_file at_row_of_three))).
Proof.
  apply (odd_width_reads_one_pixel_more 3 3 at_row_of_three).
  - lia.
  - reflexivity.
  - vm_compute. lia.
Defined.

(** C5 as stated fails at the end of a file.  The only row of the 1x1 image
    has width 1, and four bytes are left when the column loop starts on it:
    the pixel and one padding byte.  Its single pass extracts those four
    bytes, not the six of a pixel pair, and the stream fails: the loop has
    not extracted [1 + 1] pixels. *)
Lemma row_of_one_comes_up_short :
  exists st',
    column_loop 2 1 0 at_row_of_one = Some st'
    /\ length (unread (input_file at_row_of_one)) = 4%nat
    /\ unread (input_file st') = []
    /\ good (input_file st') = false
    /\ Z.of_nat (length (unread (input_file at_row_of_one)))
       - Z.of_nat (length (unread (input_file st')))
       <> 3 * (1 + 1).
Proof.
  eexists. split; [vm_compute; reflexivity|].
  repeat split; vm_compute; discriminate.
Qed.

(** On a good stream that holds them, the row loop extracts
    [6 * ((w + 1) / 2)] bytes for each row, one row after the other. *)
Lemma row_loop_back_to_back (w h : Z) (fuel : nat) (st : streams) :
  0 <= w < 2 ^ 31 ->
  0 <= h < 2 ^ 31 ->
  good (input_file st) = true ->
  6 * ((w + 1) / 2) * h <= Z.of_nat (length (unread (input_file st))) ->
  (rows_read h + pairs_read w < fuel)%nat ->
  let n := Z.to_nat ((w + 1) / 2) in
  row_loop fuel w h 0 st
  = Some {| input_file :=
              {| unread := skipn (6 * n * Z.to_nat h) (unread (input_file st));
                 good := true |};
            written :=
              written st
              ++ flat_map
                   (fun r => pack_pairs n (skipn (6 * n * r) (unread (input_file st))))
                   (seq 0 (Z.to_nat h)) |}.
Proof.
  intros Hw Hh Hgood Hlen Hfuel n.
  pose proof (pairs_read_nonneg w Hw) as Hp.
  pose proof (rows_read_nonneg h Hh) as Hr.
  assert (Hn : n = pairs_read w) by (unfold n; lia).
  assert (Hrows : Z.to_nat h = rows_read h) by lia.
  rewrite row_loop_terminates;
    [|rewrite to_size_t_small; lia|exact Hfuel].
  rewrite column_steps_enough; [|exact Hgood|nia].
  rewrite pack_pairs_rows, Hn, Hrows.
  replace (6 * (rows_read h * pairs_read w))%nat
    with (6 * pairs_read w * rows_read h)%nat by lia.
  reflexivity.
Qed.

Lemma pixel_stream_whole fh_object ih_object (file : list byte) :
  (54 <= length file)%nat ->
  pixel_stream fh_object ih_object file = {| unread := skipn 54 file; good := true |}.
Proof.
  intros H. unfold pixel_stream. rewrite read_headers_whole by exact H. reflexivity.
Qed.

(** C10, amended: on an accepted image of [h] rows of width [w] the loops
    do nothing to the input stream but [h * ((w + 1) / 2)] reads of six
    bytes, one after the other.  On a file that holds them the bytes that
    follow the headers are thus read back to back: row [r] is made of the
    [6 * ((w + 1) / 2)] bytes at offset [54 + 6 * ((w + 1) / 2) * r] of the
    file, nothing is skipped in between, and the loops leave the stream
    [6 * ((w + 1) / 2) * h] bytes past the headers.  When [3 * w] is not a
    multiple of four the rows of the input end in padding bytes, at offsets
    [3 * w] up to [input_row_stride w] of the row: for every row [r] after
    the first, the bytes read for row [r] start at or past the first
    padding byte of the first row, and its padding ends within the bytes
    read for rows [0..r], where it has been taken as pixel data. *)
Theorem rows_read_back_to_back (file fh_object ih_object : list byte) (fuel : nat) :
  let fh := file_header_read fh_object ih_object file in
  let ih := info_header_read fh_object ih_object file in
  let w := bi_width ih in
  let h := bi_height ih in
  let n := Z.to_nat ((w + 1) / 2) in
  let start := {| input_file := pixel_stream fh_object ih_object file;
                  written := written_before_pixels fh ih |} in
  bf_type fh = constants.BMP_SIGNATURE ->
  bi_bit_count ih = 24 ->
  0 <= w ->
  0 <= h ->
  (rows_read h + pairs_read w < fuel)%nat ->
  row_loop fuel w h 0 start = Some (Nat.iter (Z.to_nat h * n) column_step start)
  /\ convert_bmp_24_to_4_depth fuel (Some file) true fh_object ih_object
     = Some {| cerr := None;
               output_file :=
                 Some (written (Nat.iter (Z.to_nat h * n) column_step start)) |}
  /\ (54 + 6 * ((w + 1) / 2) * h <= Z.of_nat (length file) ->
      Nat.iter (Z.to_nat h * n) column_step start
      = {| input_file :=
             {| unread := skipn (54 + 6 * n * Z.to_nat h) file; good := true |};
           written :=
             written_before_pixels fh ih
             ++ flat_map (fun r => pack_pairs n (skipn (54 + 6 * n * r) file))
                  (seq 0 (Z.to_nat h)) |})
  /\ ((3 * w) mod 4 <> 0 ->
      forall r : Z, 1 <= r ->
        3 * w < input_row_stride w
        /\ 3 * w <= 6 * ((w + 1) / 2) * r
        /\ input_row_stride w <= 6 * ((w + 1) / 2) * (r + 1)).
Proof.
  intros fh ih w h n start Hsig Hbits Hw Hh Hfuel.
  pose proof (bi_width_range fh_object ih_object file) as Hwr.
  pose proof (bi_height_range fh_object ih_object file) as Hhr.
  fold ih in Hwr, Hhr. fold w in Hwr. fold h in Hhr.
  pose proof (Z.div_mod (w + 1) 2 ltac:(lia)) as Hdm.
  pose proof (Z.mod_pos_bound (w + 1) 2 ltac:(lia)) as Hmb.
  pose proof (pairs_read_nonneg w ltac:(lia)) as Hp.
  pose proof (rows_read_nonneg h ltac:(lia)) as Hr.
  assert (Hn : pairs_read w = n) by (unfold n; lia).
  assert (Hrows : rows_read h = Z.to_nat h) by lia.
  assert (Hloop : row_loop fuel w h 0 start
                  = Some (Nat.iter (Z.to_nat h * n) column_step start)).
  { rewrite row_loop_terminates; [|rewrite to_size_t_small; lia|exact Hfuel].
    rewrite Hn, Hrows. reflexivity. }
  split; [exact Hloop|]. split; [|split].
  - rewrite convert_unfold. cbv zeta. fold fh ih w h start.
    rewrite Hsig, Hbits, !Z.eqb_refl. cbn [negb]. rewrite Hloop. reflexivity.
  - intros Hlen.
    assert (Hfile : (54 <= length file)%nat) by nia.
    unfold start. rewrite pixel_stream_whole by exact Hfile.
    rewrite column_steps_enough;
      [|reflexivity|cbn [input_file unread]; rewrite length_skipn; nia].
    cbn [input_file unread written].
    rewrite pack_pairs_rows, skipn_skipn.
    replace (6 * (Z.to_nat h * n) + 54)%nat with (54 + 6 * n * Z.to_nat h)%nat by lia.
    do 2 f_equal. apply flat_map_ext. intros r.
    rewrite skipn_skipn. do 2 f_equal. lia.
  - intros Hpad r Hr1. unfold input_row_stride, ceil_div.
    replace (3 * w + 4 - 1) with (3 * w + 3) by lia.
    pose proof (Z.div_mod (3 * w + 3) 4 ltac:(lia)) as Hs.
    pose proof (Z.mod_pos_bound (3 * w + 3) 4 ltac:(lia)) as Hsb.
    pose proof (Z.div_mod (3 * w) 4 ltac:(lia)) as Hq.
    pose proof (Z.mod_pos_bound (3 * w) 4 ltac:(lia)) as Hqb.
    assert (Hstride : 3 * w < 4 * ((3 * w + 3) / 4) <= 3 * w + 3) by lia.
    split; [lia|]. split; nia.
Qed.

Lemma rows_read_back_to_back_witness :
  let fh := file_header_read fh_zeroed ih_zeroed file_2x3 in
  let ih := info_header_read fh_zeroed ih_zeroed file_2x3 in
  let w := bi_width ih in
  let h := bi_height ih in
  let n := Z.to_nat ((w + 1) / 2) in
  let start := {| input_file := pixel_stream fh_zeroed ih_zeroed file_2x3;
                  written := written_before_pixels fh ih |} in
  row_loop 5 w h 0 start = Some (Nat.iter (Z.to_nat h * n) column_step start)
  /\ convert_bmp_24_to_4_depth 5 (Some file_2x3) true fh_zeroed ih_zeroed
     = Some {| cerr := None;
               output_file :=
                 Some (written (Nat.iter (Z.to_nat h * n) column_step start)) |}
  /\ (54 + 6 * ((w + 1) / 2) * h <= Z.of_nat (length file_2x3) ->
      Nat.iter (Z.to_nat h * n) column_step start
      = {| input_file :=
             {| unread := skipn (54 + 6 * n * Z.to_nat h) file_2x3; good := true |};
           written :=
             written_before_pixels fh ih
             ++ flat_map (fun r => pack_pairs n (skipn (54 + 6 * n * r) file_2x3))
                  (seq 0 (Z.to_nat h)) |})
  /\ ((3 * w) mod 4 <> 0 ->
      forall r : Z, 1 <= r ->
        3 * w < input_row_stride w
        /\ 3 * w <= 6 * ((w + 1) / 2) * r
        /\ input_row_stride w <= 6 * ((w + 1) / 2) * (r + 1)).
Proof.
  apply (rows_read_back_to_back file_2x3 fh_zeroed ih_zeroed 5).
  - vm_compute. reflexivity.
  - vm_compute. reflexivity.
  - vm_compute. discriminate.
  - vm_compute. discriminate.
  - vm_compute. lia.
Defined.

(** C10 as stated fails on the same image: it is accepted and converted,
    and the row loop has extracted four bytes for its one row, not
    [6 * ceil_div 1 2 = 6]. *)
Lemma file_1x1_comes_up_short :
  exists st',
    row_loop 3 1 1 0 at_row_of_one = Some st'
    /\ convert_bmp_24_to_4_depth 3 (Some file_1x1) true fh_zeroed ih_zeroed
       = Some {| cerr := None; output_file := Some (written st') |}
    /\ bi_width (info_header_read fh_zeroed ih_zeroed file_1x1) = 1
    /\ bi_height (info_header_read fh_zeroed ih_zeroed file_1x1) = 1
    /\ good (input_file st') = false
    /\ Z.of_nat (length (unread (input_file at_row_of_one)))
       - Z.of_nat (length (unread (input_file st')))
       <> 6 * ceil_div 1 2 * 1.
Proof.
  eexists. split; [vm_compute; reflexivity|].
  repeat split; vm_compute; discriminate || reflexivity.
Qed.

(** ** The file size and the row length written *)

(** What the size field is set to, for dimensions that do not wrap around. *)
Lemma bf_size_written fh ih :
  0 <= bi_width ih < 2 ^ 29 ->
  0 <= bi_height ih < 2 ^ 31 ->
  4 * (bi_width ih / 8) * bi_height ih + 54 < 2 ^ 32 ->
  bf_size (update_file_header fh ih) = 4 * (bi_width ih / 8) * bi_height ih + 54.
Proof.
  intros Hw Hh Hfit.
  assert (Hq : Z.quot (4 * bi_width ih) 32 = bi_width ih / 8).
  { rewrite Z.quot_div_nonneg by lia.
    replace 32 with (4 * 8) by lia. rewrite Z.div_mul_cancel_l by lia. reflexivity. }
  pose proof (Z.div_mod (bi_width ih) 8 ltac:(lia)) as Hdm.
  pose proof (Z.mod_pos_bound (bi_width ih) 8 ltac:(lia)) as Hmb.
  unfold update_file_header, pixel_array_size, row_size, ceil_of_int,
    constants.target_bitcount, to_uint32. cbn [bf_size].
  rewrite Hq.
  rewrite (Z.mod_small (bi_width ih / 8 * 4)) by lia.
  rewrite (Z.mod_small (bi_height ih)) by lia.
  assert (Hqh : 0 <= bi_width ih / 8 * bi_height ih)
    by (apply Z.mul_nonneg_nonneg; lia).
  rewrite (Z.mod_small (bi_width ih / 8 * 4 * bi_height ih)) by lia.
  change (Z.of_nat sizeof_bitmap_file_header) with 14.
  change (Z.of_nat sizeof_bitmap_info_header) with 40.
  rewrite Z.mod_small by lia. lia.
Qed.

(** C1: on the 2x1 sample the size field written is 54: the row size
    computed is [4 * (2 / 8) = 0], the quotient having been taken on
    integers before [std::ceil], and the 64 bytes of the palette are not
    added, although 119 bytes are written.  The size the format prescribes,
    [4 * ceil (2 / 8) * 1 + 14 + 40 + 64], is 122. *)
Theorem file_size_of_2x1 :
  exists out : list byte,
    convert_bmp_24_to_4_depth 3 (Some file_2x1) true fh_zeroed ih_zeroed
    = Some {| cerr := None; output_file := Some out |}
    /\ bf_size (load_file_header (field 0 14 out)) = 54
    /\ length out = 119%nat
    /\ 4 * ceil_div 2 8 * 1 + 14 + 40 + 64 = 122.
Proof.
  eexists. split; [vm_compute; reflexivity|].
  split; [vm_compute; reflexivity|].
  split; reflexivity.
Qed.

(** The column loop writes one byte for each pair it reads and nothing
    else: [(w + 1) / 2] bytes for a row of width [w]. *)
Lemma row_bytes_written (w : Z) (fuel : nat) (st : streams) :
  0 <= w < 2 ^ 31 ->
  (pairs_read w < fuel)%nat ->
  exists st',
    column_loop fuel w 0 st = Some st'
    /\ Z.of_nat (length (written st')) = Z.of_nat (length (written st)) + (w + 1) / 2.
Proof.
  intros Hw Hfuel. eexists. split.
  - apply column_loop_terminates; [rewrite to_size_t_small; lia|exact Hfuel].
  - rewrite column_steps_written, Nat2Z.inj_add, pairs_read_nonneg by lia. reflexivity.
Qed.

(** C2: for a row of width 2 the column loop writes one byte, where the
    format asks for [4 * ceil (2 / 8) = 4]: no padding is written, and the
    pixel data of the converted 2x1 sample is a single byte. *)
Theorem row_of_width_2_is_one_byte :
  (exists st',
     column_loop 2 2 0 {| input_file := ifstream_open rows_of_two; written := [] |}
     = Some st'
     /\ length (written st') = 1%nat)
  /\ (exists out,
        convert_bmp_24_to_4_depth 3 (Some file_2x1) true fh_zeroed ih_zeroed
        = Some {| cerr := None; output_file := Some out |}
        /\ length (skipn (14 + 40 + 64) out) = 1%nat)
  /\ 4 * ceil_div 2 8 = 4.
Proof.
  split; [|split].
  - eexists. split; vm_compute; reflexivity.
  - eexists. split; vm_compute; reflexivity.
  - reflexivity.
Qed.

(** ** The bytes of the updated headers *)

(** The size field written for the widths whose product with the bit count
    is an [int]: the height is taken as a [std::uint32_t], and the product
    and the sum wrap round at 2^32. *)
Lemma bf_size_written_mod fh ih :
  0 <= bi_width ih < 2 ^ 29 ->
  bf_size (update_file_header fh ih)
  = (4 * (bi_width ih / 8) * (bi_height ih mod 2 ^ 32) + 54) mod 2 ^ 32.
Proof.
  intros Hw.
  assert (Hq : Z.quot (4 * bi_width ih) 32 = bi_width ih / 8).
  { rewrite Z.quot_div_nonneg by lia.
    replace 32 with (4 * 8) by lia. rewrite Z.div_mul_cancel_l by lia. reflexivity. }
  pose proof (Z.div_mod (bi_width ih) 8 ltac:(lia)) as Hdm.
  pose proof (Z.mod_pos_bound (bi_width ih) 8 ltac:(lia)) as Hmb.
  unfold update_file_header, pixel_array_size, row_size, ceil_of_int,
    constants.target_bitcount, to_uint32. cbn [bf_size].
  rewrite Hq.
  rewrite (Z.mod_small (bi_width ih / 8 * 4)) by lia.
  change (Z.of_nat sizeof_bitmap_file_header) with 14.
  change (Z.of_nat sizeof_bitmap_info_header) with 40.
  rewrite <- Z.add_assoc, Z.add_mod_idemp_l by lia.
  f_equal. lia.
Qed.

(** The file header written, in the bytes of the header read: the
    signature and the two reserved fields are those read, the size and the
    offset are new. *)
Lemma store_update_file_header (m : list byte) (ih : bitmap_info_header) :
  length m = 14%nat ->
  store_file_header (update_file_header (load_file_header m) ih)
  = field 0 2 m
    ++ le_bytes 4 (bf_size (update_file_header (load_file_header m) ih))
    ++ field 6 4 m
    ++ le_bytes 4 (le_uint (field 10 4 m) + 64).
Proof.
  intros Hm. unfold store_file_header.
  cbn [update_file_header bf_type bf_size bf_reserved1 bf_reserved2 bf_off_bits].
  unfold load_file_header.
  cbn [bf_type bf_size bf_reserved1 bf_reserved2 bf_off_bits].
  rewrite !store_load_unsigned by lia.
  change (Z.of_nat sizeof_rgb_quad * 2 ^ constants.target_bitcount) with 64.
  unfold to_uint32 at 2. change (2 ^ 32) with (256 ^ Z.of_nat 4).
  rewrite le_bytes_mod.
  replace (field 6 4 m) with (field 6 2 m ++ field 8 2 m)
    by apply (field_app 6 2 2).
  rewrite <- !app_assoc. reflexivity.
Qed.

(** The 118 bytes written before the pixel data, in the bytes of the file
    read: the info header is the one read but for bytes 28 and 29, the bit
    count, which are 04 00. *)
Lemma written_before_pixels_bytes (file : list byte) :
  (54 <= length file)%nat ->
  written_before_pixels (load_file_header (field 0 14 file))
    (load_info_header (field 14 40 file))
  = field 0 2 file
    ++ le_bytes 4 (bf_size (update_file_header (load_file_header (field 0 14 file))
                              (load_info_header (field 14 40 file))))
    ++ field 6 4 file
    ++ le_bytes 4 (le_uint (field 10 4 file) + 64)
    ++ field 14 14 file ++ [x04; x00] ++ field 30 24 file
    ++ palette_bytes.
Proof.
  intros Hlen. unfold written_before_pixels.
  rewrite store_update_file_header by (apply field_length; lia).
  rewrite store_update_info_header by (apply field_length; lia).
  rewrite !field_field by lia. cbn [Nat.add].
  rewrite <- !app_assoc. reflexivity.
Qed.

(** ** The end-to-end example *)

Lemma headers_of_prefix fh_object ih_object (hdr tail : list byte) :
  length hdr = 54%nat ->
  file_header_read fh_object ih_object (hdr ++ tail) = load_file_header (field 0 14 hdr)
  /\ info_header_read fh_object ih_object (hdr ++ tail)
     = load_info_header (field 14 40 hdr)
  /\ pixel_stream fh_object ih_object (hdr ++ tail) = {| unread := tail; good := true |}.
Proof.
  intros Hlen.
  unfold file_header_read, info_header_read, pixel_stream.
  rewrite read_headers_whole by (rewrite length_app; lia).
  cbn [fst snd].
  rewrite !field_app_l by lia.
  rewrite skipn_app, skipn_all2, Hlen by lia.
  repeat split.
Qed.

(** C4: a 2x1 image at 24 bits per pixel whose pixels are black
    (blue = green = red = 0) and white (blue = green = red = 255) is
    converted to a file of 119 bytes, given here byte by byte in the bytes of
    the input.  The file header is the one read with its size field set to
    54 (bytes 2..5 are 36 00 00 00) and its offset field raised by 64; the
    info header is the one read with its bit count set to 4 (bytes 28..29
    are 04 00); then come the sixty-four bytes of the palette as they stand
    in the table, and one byte of pixel data, 0x0F: the high nibble is 0, the
    index of black, and the low nibble is 15, the index of white.  That holds
    whatever else the headers hold and whatever follows the two pixels in
    the file. *)
Theorem two_by_one_example (hdr rest fh_object ih_object : list byte) (fuel : nat) :
  length hdr = 54%nat ->
  bf_type (load_file_header (field 0 14 hdr)) = constants.BMP_SIGNATURE ->
  bi_bit_count (load_info_header (field 14 40 hdr)) = 24 ->
  bi_width (load_info_header (field 14 40 hdr)) = 2 ->
  bi_height (load_info_header (field 14 40 hdr)) = 1 ->
  (2 < fuel)%nat ->
  convert_bmp_24_to_4_depth fuel
    (Some (hdr ++ [x00; x00; x00; xff; xff; xff] ++ rest)) true fh_object ih_object
  = Some {| cerr := None;
            output_file :=
              Some ([x42; x4d] ++ [x36; x00; x00; x00] ++ field 6 4 hdr
                    ++ le_bytes 4 (le_uint (field 10 4 hdr) + 64)
                    ++ field 14 14 hdr ++ [x04; x00] ++ field 30 24 hdr
                    ++ palette_bytes
                    ++ [x0f]) |}
  /\ field 0 2 hdr = [x42; x4d]
  /\ field 18 8 hdr = [x02; x00; x00; x00; x01; x00; x00; x00]
  /\ field 28 2 hdr = [x18; x00]
  /\ utils.find_closest_color
       {| rgbtBlue := x00; rgbtGreen := x00; rgbtRed := x00 |} palette = 0
  /\ utils.find_closest_color
       {| rgbtBlue := xff; rgbtGreen := xff; rgbtRed := xff |} palette = 15
  /\ nth 0 palette (quad x01 x01 x01 x01) = quad x00 x00 x00 x00
  /\ nth 15 palette (quad x01 x01 x01 x01) = quad xff xff xff x00
  /\ palette_bytes
     = [x00; x00; x00; x00;  x00; x00; xff; x00;  x00; xa1; xff; x00;
        x9f; xa0; xff; x00;  x00; xff; xff; x00;  x00; xa0; xa3; x00;
        x00; xa1; x00; x00;  x00; xff; x00; x00;  x9d; xff; xa0; x00;
        x9b; x00; x00; x00;  xff; x00; x00; x00;  xff; x00; xa2; x00;
        xff; x00; xff; x00;  xff; xff; x00; x00;  x9f; xa1; xa2; x00;
        xff; xff; xff; x00].
Proof.
  intros Hlen Hsig Hbits Hw Hh Hfuel.
  assert (Esig : field 0 2 hdr = [x42; x4d]).
  { rewrite <- (store_load_unsigned 0 2 hdr) by lia.
    unfold load_file_header in Hsig. cbn [bf_type] in Hsig.
    rewrite field_field in Hsig by lia. cbn [Nat.add] in Hsig.
    rewrite Hsig. reflexivity. }
  assert (Ebits : field 28 2 hdr = [x18; x00]).
  { rewrite <- (store_load_unsigned 28 2 hdr) by lia.
    unfold load_info_header in Hbits. cbn [bi_bit_count] in Hbits.
    rewrite field_field in Hbits by lia. cbn [Nat.add] in Hbits.
    rewrite Hbits. reflexivity. }
  assert (Edim : field 18 8 hdr = [x02; x00; x00; x00; x01; x00; x00; x00]).
  { replace (field 18 8 hdr) with (field 18 4 hdr ++ field 22 4 hdr)
      by apply (field_app 18 4 4).
    rewrite <- (store_load_signed 18 hdr), <- (store_load_signed 22 hdr) by lia.
    unfold load_info_header in Hw, Hh. cbn [bi_width bi_height] in Hw, Hh.
    rewrite field_field in Hw, Hh by lia. cbn [Nat.add] in Hw, Hh.
    rewrite Hw, Hh. reflexivity. }
  split; [|repeat (split; [assumption|]); repeat split; vm_compute; reflexivity].
  destruct (headers_of_prefix fh_object ih_object hdr
              ([x00; x00; x00; xff; xff; xff] ++ rest) Hlen) as (Hfh & Hih & Hs).
  rewrite convert_accepted; rewrite ?Hfh, ?Hih, ?Hs, ?Hw, ?Hh;
    [|exact Hsig|exact Hbits|discriminate
     |change (rows_read 1) with 1%nat; change (pairs_read 2) with 1%nat; lia].
  change (rows_read 1) with 1%nat. change (pairs_read 2) with 1%nat.
  cbn [Nat.mul Nat.add Nat.iter nat_rect]. unfold column_step.
  cbn [input_file written].
  rewrite ifstream_read_enough; [|reflexivity|cbn; lia].
  cbn [unread app firstn written].
  change (two_pixels [x00; x00; x00; xff; xff; xff]) with x0f.
  rewrite written_before_pixels_bytes by lia.
  rewrite (bf_size_written _ (load_info_header (field 14 40 hdr)));
    [|rewrite Hw; lia|rewrite Hh; lia|rewrite Hw, Hh; reflexivity].
  rewrite Hw, Hh, Esig.
  change (le_bytes 4 (4 * (2 / 8) * 1 + 54)) with [x36; x00; x00; x00].
  rewrite <- !app_assoc. reflexivity.
Qed.

Lemma two_by_one_example_witness :
  convert_bmp_24_to_4_depth 3
    (Some (firstn 54 file_2x1 ++ [x00; x00; x00; xff; xff; xff] ++ [x00; x00]))
    true fh_zeroed ih_zeroed
  = Some {| cerr := None;
            output_file :=
              Some ([x42; x4d] ++ [x36; x00; x00; x00]
                    ++ field 6 4 (firstn 54 file_2x1)
                    ++ le_bytes 4 (le_uint (field 10 4 (firstn 54 file_2x1)) + 64)
                    ++ field 14 14 (firstn 54 file_2x1) ++ [x04; x00]
                    ++ field 30 24 (firstn 54 file_2x1)
                    ++ palette_bytes
                    ++ [x0f]) |}
  /\ field 0 2 (firstn 54 file_2x1) = [x42; x4d]
  /\ field 18 8 (firstn 54 file_2x1) = [x02; x00; x00; x00; x01; x00; x00; x00]
  /\ field 28 2 (firstn 54 file_2x1) = [x18; x00]
  /\ utils.find_closest_color
       {| rgbtBlue := x00; rgbtGreen := x00; rgbtRed := x00 |} palette = 0
  /\ utils.find_closest_color
       {| rgbtBlue := xff; rgbtGreen := xff; rgbtRed := xff |} palette = 15
  /\ nth 0 palette (quad x01 x01 x01 x01) = quad x00 x00 x00 x00
  /\ nth 15 palette (quad x01 x01 x01 x01) = quad xff xff xff x00
  /\ palette_bytes
     = [x00; x00; x00; x00;  x00; x00; xff; x00;  x00; xa1; xff; x00;
        x9f; xa0; xff; x00;  x00; xff; xff; x00;  x00; xa0; xa3; x00;
        x00; xa1; x00; x00;  x00; xff; x00; x00;  x9d; xff; xa0; x00;
        x9b; x00; x00; x00;  xff; x00; x00; x00;  xff; x00; xa2; x00;
        xff; x00; xff; x00;  xff; xff; x00; x00;  x9f; xa1; xa2; x00;
        xff; xff; xff; x00].
Proof.
  apply (two_by_one_example (firstn 54 file_2x1) [x00; x00] fh_zeroed ih_zeroed 3).
  - reflexivity.
  - vm_compute. reflexivity.
  - vm_compute. reflexivity.
  - vm_compute. reflexivity.
  - vm_compute. reflexivity.
  - lia.
Defined.

(** ** Machine integers and the checks over them *)

Lemma of_Z_add a b : Uint63.of_Z (a + b) = (Uint63.of_Z a + Uint63.of_Z b)%uint63.
Proof.
  apply Uint63.to_Z_inj. rewrite Uint63.add_spec, !Uint63.of_Z_spec.
  apply Zplus_mod.
Qed.

Lemma of_Z_mul a b : Uint63.of_Z (a * b) = (Uint63.of_Z a * Uint63.of_Z b)%uint63.
Proof.
  apply Uint63.to_Z_inj. rewrite Uint63.mul_spec, !Uint63.of_Z_spec.
  apply Zmult_mod.
Qed.

Lemma of_Z_succ a : Uint63.of_Z (a + 1) = Uint63.succ (Uint63.of_Z a).
Proof. rewrite of_Z_add. reflexivity. Qed.

Lemma all_from_spec (n : nat) :
  forall (a : Z) (p : int -> bool),
    all_from n (Uint63.of_Z a) p = true ->
    forall k, a <= k < a + Z.of_nat n -> p (Uint63.of_Z k) = true.
Proof.
  induction n as [|n IH]; intros a p Hall k Hk; [lia|].
  cbn [all_from] in Hall.
  destruct (p (Uint63.of_Z a)) eqn:Hp; [|discriminate].
  destruct (Z.eq_dec k a) as [->|Hne]; [exact Hp|].
  rewrite <- of_Z_succ in Hall. apply (IH (a + 1) p Hall). lia.
Qed.

Lemma all_from_zero (n : nat) (p : int -> bool) :
  all_from n 0 p = true ->
  forall k, 0 <= k < Z.of_nat n -> p (Uint63.of_Z k) = true.
Proof. intros H k Hk. apply (all_from_spec n 0 p H). lia. Qed.

(** The square of the opposite of [0..255] is the square. *)
Lemma squares_of_opposites_checked :
  all_from 256 0 (fun i =>
    Leibniz.eqb (utils.pow_2 (- of_uint63 i)) (utils.pow_2 (of_uint63 i))) = true.
Proof. vm_compute. reflexivity. Qed.

(** The sum of three squares of [0..255], computed in [double] the way
    [color_distance] does, is the integer sum: no rounding takes place. *)
Lemma sums_of_squares_checked :
  all_from 256 0 (fun i =>
    let fi := utils.pow_2 (of_uint63 i) in
    let ii := (i * i)%uint63 in
    all_from 256 0 (fun j =>
      let fij := (fi + utils.pow_2 (of_uint63 j))%float in
      let ij := (ii + j * j)%uint63 in
      all_from 256 0 (fun k =>
        Leibniz.eqb (fij + utils.pow_2 (of_uint63 k))%float
                    (of_uint63 (ij + k * k)%uint63)))) = true.
Proof. vm_compute. reflexivity. Qed.

(** The rounded square roots of [0..max_sq_distance] increase strictly. *)
Lemma roots_increase_checked :
  all_from (765 * 255) 0 (fun m =>
    (PrimFloat.sqrt (of_uint63 m) <? PrimFloat.sqrt (of_uint63 (Uint63.succ m)))%float)
  = true.
Proof. vm_compute. reflexivity. Qed.

(** ** The order of binary64 values *)

Lemma SFltb_trans x y z :
  SFltb x y = true -> SFltb y z = true -> SFltb x z = true.
Proof.
  destruct x as [[]|[]| |[] mx ex], y as [[]|[]| |[] my ey],
           z as [[]|[]| |[] mz ez]; order_cases.
Qed.

Lemma SFltb_irrefl x : SFltb x x = false.
Proof. destruct x as [[]|[]| |[] mx ex]; order_cases. Qed.

Lemma SFltb_asym x y : SFltb x y = true -> SFltb y x = false.
Proof.
  destruct x as [[]|[]| |[] mx ex], y as [[]|[]| |[] my ey]; order_cases.
Qed.

(** ** The double distance orders the palette as the exact one does *)

Lemma root_step k :
  0 <= k < max_sq_distance -> (root k <? root (k + 1))%float = true.
Proof.
  intros Hk. unfold root. rewrite of_Z_succ.
  apply (all_from_zero _ _ roots_increase_checked k).
  unfold max_sq_distance in Hk. lia.
Qed.

Lemma root_lt a b :
  0 <= a -> a < b -> b <= max_sq_distance -> (root a <? root b)%float = true.
Proof.
  intros Ha Hab Hb.
  replace b with (a + 1 + Z.of_nat (Z.to_nat (b - a - 1))) in * by lia.
  induction (Z.to_nat (b - a - 1)) as [|n IH].
  - rewrite Z.add_0_r. apply root_step. lia.
  - rewrite FloatAxioms.ltb_spec. apply SFltb_trans with (Prim2SF (root (a + 1 + Z.of_nat n))).
    + rewrite <- FloatAxioms.ltb_spec. apply IH; lia.
    + rewrite <- FloatAxioms.ltb_spec.
      replace (a + 1 + Z.of_nat (S n)) with (a + 1 + Z.of_nat n + 1) by lia.
      apply root_step. lia.
Qed.

(** On [0..max_sq_distance] the rounded roots compare as the integers do. *)
Lemma root_ltb a b :
  0 <= a <= max_sq_distance -> 0 <= b <= max_sq_distance ->
  (root a <? root b)%float = (a <? b).
Proof.
  intros Ha Hb. destruct (Z.ltb_spec a b) as [Hlt|Hge].
  - apply root_lt; lia.
  - rewrite FloatAxioms.ltb_spec. destruct (Z.eq_dec a b) as [->|Hne].
    + apply SFltb_irrefl.
    + apply SFltb_asym. rewrite <- FloatAxioms.ltb_spec. apply root_lt; lia.
Qed.

Lemma pow_2_double_of_int d :
  - 255 <= d <= 255 ->
  utils.pow_2 (utils.double_of_int d)
  = utils.pow_2 (of_uint63 (Uint63.of_Z (Z.abs d))).
Proof.
  intros Hd. unfold utils.double_of_int.
  destruct (Z.ltb_spec d 0) as [Hneg|Hpos].
  - rewrite Z.abs_neq by lia. apply FloatAxioms.Leibniz.eqb_spec.
    apply (all_from_zero _ _ squares_of_opposites_checked (- d)).
    change (Z.of_nat 256) with 256. lia.
  - rewrite Z.abs_eq by lia. reflexivity.
Qed.

Lemma sum_of_squares_exact a b c :
  0 <= a <= 255 -> 0 <= b <= 255 -> 0 <= c <= 255 ->
  (utils.pow_2 (of_uint63 (Uint63.of_Z a)) + utils.pow_2 (of_uint63 (Uint63.of_Z b))
   + utils.pow_2 (of_uint63 (Uint63.of_Z c)))%float
  = of_uint63 (Uint63.of_Z (a * a + b * b + c * c)).
Proof.
  intros Ha Hb Hc.
  pose proof (all_from_zero _ _ sums_of_squares_checked a ltac:(cbn; lia)) as H1.
  cbv zeta in H1.
  pose proof (all_from_zero _ _ H1 b ltac:(cbn; lia)) as H2. cbv zeta in H2.
  pose proof (all_from_zero _ _ H2 c ltac:(cbn; lia)) as H3.
  apply FloatAxioms.Leibniz.eqb_spec in H3. rewrite H3.
  rewrite !of_Z_add, !of_Z_mul. reflexivity.
Qed.

Lemma square_range d : - 255 <= d <= 255 -> 0 <= d * d <= 255 * 255.
Proof. intros H. nia. Qed.

Lemma sq_distance_range color1 color2 :
  0 <= sq_distance color1 color2 <= max_sq_distance.
Proof.
  unfold sq_distance, max_sq_distance.
  pose proof (u8_range (rgbBlue color2)). pose proof (u8_range (rgbtBlue color1)).
  pose proof (u8_range (rgbGreen color2)). pose proof (u8_range (rgbtGreen color1)).
  pose proof (u8_range (rgbRed color2)). pose proof (u8_range (rgbtRed color1)).
  pose proof (square_range (u8 (rgbBlue color2) - u8 (rgbtBlue color1)) ltac:(lia)).
  pose proof (square_range (u8 (rgbGreen color2) - u8 (rgbtGreen color1)) ltac:(lia)).
  pose proof (square_range (u8 (rgbRed color2) - u8 (rgbtRed color1)) ltac:(lia)).
  lia.
Qed.

(** The distance computed is the rounded root of the exact squared distance. *)
Lemma color_distance_root color1 color2 :
  utils.color_distance color1 color2 = root (sq_distance color1 color2).
Proof.
  unfold utils.color_distance, root, sq_distance.
  pose proof (u8_range (rgbBlue color2)). pose proof (u8_range (rgbtBlue color1)).
  pose proof (u8_range (rgbGreen color2)). pose proof (u8_range (rgbtGreen color1)).
  pose proof (u8_range (rgbRed color2)). pose proof (u8_range (rgbtRed color1)).
  rewrite !pow_2_double_of_int by lia.
  rewrite sum_of_squares_exact by lia.
  rewrite !Z.abs_square. reflexivity.
Qed.

Lemma distance_to_color_exact color lhs rhs :
  (utils.color_distance color lhs <? utils.color_distance color rhs)%float
  = (sq_distance color lhs <? sq_distance color rhs).
Proof.
  rewrite !color_distance_root. apply root_ltb; apply sq_distance_range.
Qed.

(** ** min_element *)

Section MinElement.

Context {A : Type}.

Lemma min_element_from_ext (comp1 comp2 : A -> A -> bool) :
  (forall x y, comp1 x y = comp2 x y) ->
  forall rest pos smallest_pos smallest,
    utils.min_element_from comp1 rest pos smallest_pos smallest
    = utils.min_element_from comp2 rest pos smallest_pos smallest.
Proof.
  intros Hext rest. induction rest as [|x rest IH]; intros pos sp s; [reflexivity|].
  cbn [utils.min_element_from]. rewrite Hext, !IH. reflexivity.
Qed.

Lemma min_element_ext (comp1 comp2 : A -> A -> bool) (l : list A) :
  (forall x y, comp1 x y = comp2 x y) ->
  utils.min_element comp1 l = utils.min_element comp2 l.
Proof.
  intros Hext. destruct l as [|x rest]; [reflexivity|].
  apply min_element_from_ext. exact Hext.
Qed.

Variable comp : A -> A -> bool.

Lemma min_element_from_bound (rest : list A) :
  forall pos smallest_pos smallest,
    (smallest_pos < pos)%nat ->
    (utils.min_element_from comp rest pos smallest_pos smallest
     < pos + length rest)%nat.
Proof.
  induction rest as [|x rest IH]; intros pos sp s Hsp; cbn [utils.min_element_from length].
  - lia.
  - destruct (comp x s).
    + specialize (IH (S pos) pos x). lia.
    + specialize (IH (S pos) sp s). lia.
Qed.

(** The position returned lies inside a non-empty range. *)
Lemma min_element_bound (l : list A) :
  l <> [] -> (utils.min_element comp l < length l)%nat.
Proof.
  destruct l as [|x rest]; [congruence|]. intros _.
  unfold utils.min_element. pose proof (min_element_from_bound rest 1 0 x). cbn [length].
  lia.
Qed.

Variable key : A -> Z.
Variable d : A.

(** The scan for a comparison of integer keys: with the elements of [seen]
    behind it and the least of them, first among equals, in hand, it ends
    on the first least element of the whole range. *)
Lemma min_element_from_least (rest : list A) :
  forall (seen : list A) (sp : nat),
    (sp < length seen)%nat ->
    (forall j, (j < length seen)%nat -> key (nth sp seen d) <= key (nth j seen d)) ->
    (forall j, (j < sp)%nat -> key (nth sp seen d) < key (nth j seen d)) ->
    let i := utils.min_element_from (fun x y => key x <? key y) rest
               (length seen) sp (nth sp seen d) in
    (i < length (seen ++ rest))%nat
    /\ (forall j, (j < length (seen ++ rest))%nat ->
          key (nth i (seen ++ rest) d) <= key (nth j (seen ++ rest) d))
    /\ (forall j, (j < i)%nat ->
          key (nth i (seen ++ rest) d) < key (nth j (seen ++ rest) d)).
Proof.
  induction rest as [|x rest IH]; intros seen sp Hsp Hle Hlt.
  - cbn [utils.min_element_from]. rewrite app_nil_r. auto.
  - cbn [utils.min_element_from].
    assert (Hlen : length (seen ++ [x]) = S (length seen))
      by (rewrite length_app; cbn; lia).
    assert (Hx : nth (length seen) (seen ++ [x]) d = x)
      by (rewrite app_nth2, Nat.sub_diag by lia; reflexivity).
    replace (seen ++ x :: rest) with ((seen ++ [x]) ++ rest)
      by (rewrite <- app_assoc; reflexivity).
    destruct (Z.ltb_spec (key x) (key (nth sp seen d))) as [Hless|Hnot].
    + specialize (IH (seen ++ [x]) (length seen)).
      rewrite Hlen, Hx in IH. apply IH.
      * lia.
      * intros j Hj. destruct (Nat.eq_dec j (length seen)) as [->|Hne].
        -- rewrite Hx. lia.
        -- rewrite app_nth1 by lia. specialize (Hle j). lia.
      * intros j Hj. rewrite app_nth1 by lia. specialize (Hle j). lia.
    + specialize (IH (seen ++ [x]) sp).
      rewrite Hlen, (app_nth1 seen [x] d Hsp) in IH. apply IH.
      * lia.
      * intros j Hj. destruct (Nat.eq_dec j (length seen)) as [->|Hne].
        -- rewrite Hx. lia.
        -- rewrite app_nth1 by lia. apply Hle. lia.
      * intros j Hj. rewrite app_nth1 by lia. apply Hlt. exact Hj.
Qed.

Lemma min_element_least (l : list A) :
  l <> [] ->
  let i := utils.min_element (fun x y => key x <? key y) l in
  (i < length l)%nat
  /\ (forall j, (j < length l)%nat -> key (nth i l d) <= key (nth j l d))
  /\ (forall j, (j < i)%nat -> key (nth i l d) < key (nth j l d)).
Proof.
  destruct l as [|x rest]; [congruence|]. intros _.
  apply (min_element_from_least rest [x] 0%nat).
  - cbn. lia.
  - intros j Hj. cbn in Hj. replace j with 0%nat by lia. cbn. lia.
  - intros j Hj. lia.
Qed.

End MinElement.

(** ** find_closest_color *)

(** The byte returned is the position found by the scan on exact squared
    distances. *)
Lemma find_closest_color_exact color :
  utils.find_closest_color color palette = Z.of_nat (nearest_exact color palette)
  /\ (nearest_exact color palette < 16)%nat.
Proof.
  assert (Hpos : utils.min_element
                   (fun lhs rhs =>
                      (utils.color_distance color lhs <? utils.color_distance color rhs)%float)
                   palette
                 = nearest_exact color palette).
  { apply min_element_ext. intros x y. apply distance_to_color_exact. }
  assert (Hlt : (nearest_exact color palette < 16)%nat).
  { apply (min_element_bound _ palette). discriminate. }
  split; [|exact Hlt].
  unfold utils.find_closest_color. rewrite Hpos.
  unfold to_uint8. apply Z.mod_small. change (2 ^ 8) with 256. lia.
Qed.

(** C9: [find_closest_color] is a function of the colour, defined on every
    colour, and its value on the palette is an index below 16: 16 is the
    number of palette entries, and any two results for one colour agree. *)
Theorem find_closest_color_total (color : rgb_triple) :
  0 <= utils.find_closest_color color palette < 16
  /\ length palette = 16%nat
  /\ (forall index1 index2 : Z,
        utils.find_closest_color color palette = index1 ->
        utils.find_closest_color color palette = index2 ->
        index1 = index2).
Proof.
  destruct (find_closest_color_exact color) as [Heq Hlt].
  split; [rewrite Heq; lia|].
  split; [reflexivity|].
  intros index1 index2 H1 H2. congruence.
Qed.

(** C3: the index returned for a colour is the least index among the
    palette entries at minimal distance from it.  No entry is at a smaller
    squared distance, every entry before it is at a strictly greater one, and
    the [double] distances of [color_distance] compare the same way.  Hence
    an entry strictly closer than every other entry is the one returned, and
    of two entries at the same distance the one of greater index never is. *)
Theorem find_closest_color_least_nearest (color : rgb_triple) :
  let entry := fun j : nat => nth j palette (quad x00 x00 x00 x00) in
  exists i : nat,
    utils.find_closest_color color palette = Z.of_nat i
    /\ (i < 16)%nat
    /\ (forall j, (j < 16)%nat ->
          sq_distance color (entry i) <= sq_distance color (entry j))
    /\ (forall j, (j < i)%nat ->
          sq_distance color (entry i) < sq_distance color (entry j))
    /\ (forall j, (j < 16)%nat ->
          (utils.color_distance color (entry j)
           <? utils.color_distance color (entry i))%float = false)
    /\ (forall j, (j < i)%nat ->
          (utils.color_distance color (entry i)
           <? utils.color_distance color (entry j))%float = true)
    /\ (forall p, (p < 16)%nat ->
          (forall j, (j < 16)%nat -> j <> p ->
             sq_distance color (entry p) < sq_distance color (entry j)) ->
          i = p)
    /\ (forall j k, (j < k < 16)%nat ->
          sq_distance color (entry j) = sq_distance color (entry k) ->
          i <> k).
Proof.
  intros entry.
  destruct (find_closest_color_exact color) as [Heq Hlt].
  destruct (min_element_least (sq_distance color) (quad x00 x00 x00 x00) palette
              ltac:(discriminate)) as (_ & Hle & Hfirst).
  fold (nearest_exact color palette) in Hle, Hfirst.
  change (length palette) with 16%nat in Hle.
  exists (nearest_exact color palette).
  split; [exact Heq|]. split; [exact Hlt|].
  split; [exact Hle|]. split; [exact Hfirst|].
  split; [|split; [|split]].
  - intros j Hj. rewrite distance_to_color_exact. apply Z.ltb_ge. apply Hle. exact Hj.
  - intros j Hj. rewrite distance_to_color_exact. apply Z.ltb_lt. apply Hfirst. exact Hj.
  - intros p Hp Hstrict.
    destruct (Nat.eq_dec (nearest_exact color palette) p) as [E|Hne]; [exact E|].
    specialize (Hstrict _ Hlt Hne). specialize (Hle p Hp). unfold entry in Hstrict. lia.
  - intros j k Hjk Htie Hk. rewrite Hk in Hfirst.
    specialize (Hfirst j ltac:(lia)). unfold entry in Htie. lia.
Qed.

(** * Further properties *)

(** ** The loops on a file that ends early *)

Lemma firstn_of_repeat {A : Type} (x : A) (n m : nat) :
  firstn n (repeat x m) = repeat x (Nat.min n m).
Proof.
  revert m. induction n as [|n IH]; intros [|m]; cbn; try reflexivity.
  rewrite IH. reflexivity.
Qed.

Lemma skipn_of_repeat {A : Type} (x : A) (n m : nat) :
  skipn n (repeat x m) = repeat x (m - n).
Proof.
  revert m. induction n as [|n IH]; intros [|m]; cbn; try reflexivity. apply IH.
Qed.

Lemma firstn_app_zeros (rem : list byte) (m : nat) :
  (length rem < 6)%nat -> (6 <= length rem + m)%nat ->
  rem ++ skipn (length rem) fresh_pixels = firstn 6 (rem ++ repeat x00 m).
Proof.
  intros Hshort Hm. rewrite firstn_app, firstn_all2 by lia. f_equal.
  unfold fresh_pixels. rewrite skipn_of_repeat, firstn_of_repeat.
  f_equal. lia.
Qed.

Lemma skipn_app_zeros (rem : list byte) (m : nat) :
  (length rem < 6)%nat ->
  skipn 6 (rem ++ repeat x00 m) = repeat x00 (m - (6 - length rem)).
Proof.
  intros Hshort. rewrite skipn_app, skipn_all2 by lia. cbn [app].
  apply skipn_of_repeat.
Qed.

(** Whatever the stream holds, [k] passes write what they would write on
    the bytes it can still deliver followed by zero bytes. *)
Lemma column_steps_zero_padded (k : nat) :
  forall (st : streams) (m : nat),
    (6 * k <= length (remaining (input_file st)) + m)%nat ->
    written (Nat.iter k column_step st)
    = written st ++ pack_pairs k (remaining (input_file st) ++ repeat x00 m).
Proof.
  induction k as [|k IH]; intros [[bytes g] out] m Hm.
  - cbn. rewrite app_nil_r. reflexivity.
  - rewrite iter_step_shift. unfold remaining in Hm. cbn [input_file good unread] in Hm.
    unfold column_step at 2. unfold ifstream_read, remaining.
    cbn [input_file written unread good].
    destruct g; cbn [length] in Hm.
    + destruct (Nat.leb_spec 6 (length bytes)) as [Hfull|Hshort].
      * rewrite (IH _ m); unfold remaining; cbn [input_file written unread good];
          [|rewrite length_skipn; lia].
        cbn [pack_pairs]. rewrite <- app_assoc. cbn [app].
        rewrite firstn_app, skipn_app.
        replace (6 - length bytes)%nat with 0%nat by lia.
        cbn [firstn skipn]. rewrite app_nil_r. reflexivity.
      * rewrite (IH _ (m - (6 - length bytes))%nat); unfold remaining;
          cbn [input_file written unread good length]; [|lia].
        cbn [pack_pairs app]. rewrite <- app_assoc. cbn [app].
        rewrite firstn_app_zeros with (m := m) by lia.
        rewrite skipn_app_zeros by lia. reflexivity.
    + rewrite (IH _ (m - 6)%nat); unfold remaining;
        cbn [input_file written unread good length]; [|lia].
      cbn [pack_pairs app]. rewrite <- app_assoc. cbn [app].
      rewrite skipn_of_repeat.
      replace (firstn 6 (repeat x00 m)) with fresh_pixels; [reflexivity|].
      unfold fresh_pixels. rewrite firstn_of_repeat. f_equal. lia.
Qed.

Lemma two_pixels_of_zeros (m : nat) : two_pixels (firstn 6 (repeat x00 m)) = x00.
Proof.
  rewrite firstn_of_repeat.
  do 6 (destruct m as [|m]; [vm_compute; reflexivity|]).
  vm_compute. reflexivity.
Qed.

Lemma pack_pairs_of_zeros (k : nat) :
  forall m, pack_pairs k (repeat x00 m) = repeat x00 k.
Proof.
  induction k as [|k IH]; intros m; [reflexivity|].
  cbn [pack_pairs repeat]. rewrite two_pixels_of_zeros, skipn_of_repeat, IH.
  reflexivity.
Qed.

(** X1: the loops never notice the end of the input.  On any stream, [k]
    passes write the [k] bytes they would write if the bytes still to be
    delivered were followed by zero bytes: a read that comes up short leaves
    the rest of the pair zero, and once nothing is left every pair is zero
    and the byte written is 0x00. *)
Theorem loops_read_zeros_past_the_end (k : nat) (st : streams) :
  written (Nat.iter k column_step st)
  = written st
    ++ pack_pairs k (remaining (input_file st) ++ repeat x00 (6 * k))
  /\ (remaining (input_file st) = [] ->
      written (Nat.iter k column_step st) = written st ++ repeat x00 k).
Proof.
  split.
  - apply column_steps_zero_padded. lia.
  - intros Hnone. rewrite (column_steps_zero_padded k st (6 * k)) by lia.
    rewrite Hnone. cbn [app]. rewrite pack_pairs_of_zeros. reflexivity.
Qed.

(** ** Round trips through the object representations *)

Lemma le_uint_le_bytes (n : nat) :
  forall z, le_uint (le_bytes n z) = z mod 256 ^ Z.of_nat n.
Proof.
  induction n as [|n IH]; intros z.
  - cbn. rewrite Z.mod_1_r. reflexivity.
  - cbn [le_bytes le_uint]. rewrite IH, u8_of_Z, Nat2Z.inj_succ, Z.pow_succ_r by lia.
    assert (Hp : 0 < 256 ^ Z.of_nat n) by (apply Z.pow_pos_nonneg; lia).
    rewrite Z.rem_mul_r by lia. reflexivity.
Qed.

Lemma le_uint_le_bytes_small (n : nat) (z : Z) :
  0 <= z < 256 ^ Z.of_nat n -> le_uint (le_bytes n z) = z.
Proof. intros H. rewrite le_uint_le_bytes. apply Z.mod_small. exact H. Qed.

Lemma to_int32_le_bytes (z : Z) :
  - 2 ^ 31 <= z < 2 ^ 31 -> to_int32 (le_uint (le_bytes 4 z)) = z.
Proof.
  intros H. rewrite le_uint_le_bytes. unfold to_int32.
  change (256 ^ Z.of_nat 4) with (2 ^ 32).
  rewrite Zplus_mod_idemp_l. rewrite Z.mod_small; lia.
Qed.

Lemma field_whole (len : nat) (x : list byte) :
  length x = len -> field 0 len x = x.
Proof. intros H. rewrite <- H. apply field_all. Qed.

(** The field at a given offset of a sequence of stored fields. *)
Ltac pick_field :=
  repeat (rewrite field_app_r by (rewrite le_bytes_length; lia);
          rewrite le_bytes_length; cbn [Nat.sub]);
  try (rewrite field_app_l by (rewrite le_bytes_length; lia));
  apply field_whole; apply le_bytes_length.

Ltac load_field :=
  match goal with
  | |- context [field ?o ?n (?a ++ ?b)] =>
      let x := fresh "x" in
      let E := fresh "E" in
      evar (x : list byte);
      assert (E : field o n (a ++ b) = x) by (subst x; pick_field);
      subst x; rewrite E; clear E
  end.

Lemma load_store_file_header (h : bitmap_file_header) :
  file_header_in_range h -> load_file_header (store_file_header h) = h.
Proof.
  intros (Ht & Hs & Hr1 & Hr2 & Ho). destruct h as [t s r1 r2 o].
  cbn [bf_type bf_size bf_reserved1 bf_reserved2 bf_off_bits] in *.
  unfold load_file_header, store_file_header.
  cbn [bf_type bf_size bf_reserved1 bf_reserved2 bf_off_bits].
  repeat load_field.
  rewrite !le_uint_le_bytes_small by (cbn; lia). reflexivity.
Qed.

Lemma load_store_info_header (h : bitmap_info_header) :
  info_header_in_range h -> load_info_header (store_info_header h) = h.
Proof.
  intros (H1 & H2 & H3 & H4 & H5 & H6 & H7 & H8 & H9 & H10 & H11).
  destruct h as [f1 f2 f3 f4 f5 f6 f7 f8 f9 f10 f11].
  cbn [bi_size bi_width bi_height bi_planes bi_bit_count bi_compression
       bi_size_image bi_x_pels_per_meter bi_y_pels_per_meter bi_clr_used
       bi_clr_important] in *.
  unfold load_info_header, store_info_header.
  cbn [bi_size bi_width bi_height bi_planes bi_bit_count bi_compression
       bi_size_image bi_x_pels_per_meter bi_y_pels_per_meter bi_clr_used
       bi_clr_important].
  repeat load_field.
  rewrite !to_int32_le_bytes by lia.
  rewrite !le_uint_le_bytes_small by (cbn; lia). reflexivity.
Qed.

Lemma store_load_file_header (m : list byte) :
  length m = 14%nat -> store_file_header (load_file_header m) = m.
Proof.
  intros Hm. unfold store_file_header, load_file_header.
  cbn [bf_type bf_size bf_reserved1 bf_reserved2 bf_off_bits].
  rewrite !store_load_unsigned by lia.
  rewrite !field_app. cbn [Nat.add]. rewrite <- Hm. apply field_all.
Qed.

(** X2: a header read from the bytes of its record and written again gives
    the same bytes: the fourteen and the forty bytes are covered field by
    field, with nothing between the fields and nothing lost in a field. *)
Theorem headers_written_as_read (fh_bytes ih_bytes : list byte) :
  length fh_bytes = 14%nat ->
  length ih_bytes = 40%nat ->
  store_file_header (load_file_header fh_bytes) = fh_bytes
  /\ store_info_header (load_info_header ih_bytes) = ih_bytes.
Proof.
  intros Hf Hi. split.
  - apply store_load_file_header. exact Hf.
  - apply store_load_info_header. exact Hi.
Qed.

Lemma headers_written_as_read_witness :
  store_file_header (load_file_header (field 0 14 file_2x3)) = field 0 14 file_2x3
  /\ store_info_header (load_info_header (field 14 40 file_2x3)) = field 14 40 file_2x3.
Proof.
  apply (headers_written_as_read (field 0 14 file_2x3) (field 14 40 file_2x3));
    reflexivity.
Defined.

(** X3: a header whose fields lie in the ranges of their types is read back
    from the bytes written for it, negative widths, heights and resolutions
    included; the records written are 14 and 40 bytes long. *)
Theorem headers_read_as_written (fh : bitmap_file_header) (ih : bitmap_info_header) :
  file_header_in_range fh ->
  info_header_in_range ih ->
  load_file_header (store_file_header fh) = fh
  /\ load_info_header (store_info_header ih) = ih
  /\ length (store_file_header fh) = 14%nat
  /\ length (store_info_header ih) = 40%nat.
Proof.
  intros Hf Hi. split; [apply load_store_file_header; exact Hf|].
  split; [apply load_store_info_header; exact Hi|].
  split; [apply store_file_header_length|apply store_info_header_length].
Qed.

Lemma headers_read_as_written_witness :
  load_file_header (store_file_header sample_file_header) = sample_file_header
  /\ load_info_header (store_info_header sample_info_header) = sample_info_header
  /\ length (store_file_header sample_file_header) = 14%nat
  /\ length (store_info_header sample_info_header) = 40%nat.
Proof.
  apply (headers_read_as_written sample_file_header sample_info_header).
  - unfold file_header_in_range, sample_file_header; cbn; lia.
  - unfold info_header_in_range, sample_info_header; cbn; lia.
Defined.

(** ** The whole output *)

Lemma written_before_pixels_length fh ih :
  length (written_before_pixels fh ih) = 118%nat.
Proof.
  unfold written_before_pixels.
  rewrite !length_app, store_file_header_length, store_info_header_length.
  reflexivity.
Qed.

(** The headers of a file of at least 54 bytes. *)
Lemma headers_of_whole_file fh_object ih_object (file : list byte) :
  (54 <= length file)%nat ->
  file_header_read fh_object ih_object file = load_file_header (field 0 14 file)
  /\ info_header_read fh_object ih_object file = load_info_header (field 14 40 file)
  /\ pixel_stream fh_object ih_object file = {| unread := skipn 54 file; good := true |}.
Proof.
  intros H. unfold file_header_read, info_header_read, pixel_stream.
  rewrite read_headers_whole by exact H. repeat split.
Qed.

(** The output of an accepted file with its headers whole. *)
Lemma convert_whole (file fh_object ih_object : list byte) (fuel : nat) :
  let fh := load_file_header (field 0 14 file) in
  let ih := load_info_header (field 14 40 file) in
  let passes := (rows_read (bi_height ih) * pairs_read (bi_width ih))%nat in
  (54 <= length file)%nat ->
  bf_type fh = constants.BMP_SIGNATURE ->
  bi_bit_count ih = 24 ->
  bi_width ih <> -1 ->
  (rows_read (bi_height ih) + pairs_read (bi_width ih) < fuel)%nat ->
  convert_bmp_24_to_4_depth fuel (Some file) true fh_object ih_object
  = Some {| cerr := None;
            output_file :=
              Some (written_before_pixels fh ih
                    ++ pack_pairs passes (skipn 54 file ++ repeat x00 (6 * passes))) |}.
Proof.
  intros fh ih passes Hlen Hsig Hbits Hw Hfuel.
  destruct (headers_of_whole_file fh_object ih_object file Hlen) as (Hfh & Hih & Hs).
  rewrite convert_accepted; rewrite ?Hfh, ?Hih; try assumption.
  rewrite Hs.
  rewrite (column_steps_zero_padded _ _ (6 * passes)); [reflexivity|].
  fold fh ih passes. lia.
Qed.

(** X4: the output of an accepted file, whole, in the bytes of the input.
    For a file of 54 bytes or more with the signature BM, 24 bits per pixel
    and a width [w] from 0 to 2^29 - 1, and with [h] its height field, the
    output is: bytes 0..1 of the input; the size
    [4 * (w / 8) * h + 54], the height taken as a [std::uint32_t] and the
    whole modulo 2^32; bytes 6..9 of the input; the offset of the input plus
    64, modulo 2^32; bytes 14..27 of the input; the bit count 04 00; bytes
    30..53 of the input; the 64 bytes of the palette table; and one byte for
    each of the [rows * pairs] pixel pairs taken, six bytes at a time, from
    what follows byte 54 of the input, zero bytes standing in for what the
    file does not hold.  The offset field of the input plays no part in
    where the pixels are read. *)
Theorem converter_output (file fh_object ih_object : list byte) (fuel : nat) :
  let ih := load_info_header (field 14 40 file) in
  let w := bi_width ih in
  let h := bi_height ih in
  let passes := (rows_read h * pairs_read w)%nat in
  (54 <= length file)%nat ->
  field 0 2 file = [x42; x4d] ->
  bi_bit_count ih = 24 ->
  0 <= w < 2 ^ 29 ->
  (rows_read h + pairs_read w < fuel)%nat ->
  convert_bmp_24_to_4_depth fuel (Some file) true fh_object ih_object
  = Some {| cerr := None;
            output_file :=
              Some ([x42; x4d]
                    ++ le_bytes 4 ((4 * (w / 8) * (h mod 2 ^ 32) + 54) mod 2 ^ 32)
                    ++ field 6 4 file
                    ++ le_bytes 4 ((le_uint (field 10 4 file) + 64) mod 2 ^ 32)
                    ++ field 14 14 file ++ [x04; x00] ++ field 30 24 file
                    ++ palette_bytes
                    ++ pack_pairs passes (skipn 54 file ++ repeat x00 (6 * passes))) |}.
Proof.
  intros ih w h passes Hlen Hsig Hbits Hw Hfuel.
  assert (Htype : bf_type (load_file_header (field 0 14 file))
                  = constants.BMP_SIGNATURE).
  { unfold load_file_header. cbn [bf_type].
    rewrite field_field by lia. cbn [Nat.add]. rewrite Hsig. reflexivity. }
  rewrite convert_whole; try assumption; fold ih w h; [|lia].
  rewrite written_before_pixels_bytes by lia. fold ih.
  rewrite bf_size_written_mod by (fold w; lia). fold w h.
  rewrite Hsig.
  change (2 ^ 32) with (256 ^ Z.of_nat 4) at 2 3.
  rewrite !le_bytes_mod.
  fold passes. rewrite <- !app_assoc. reflexivity.
Qed.

Lemma converter_output_witness :
  let ih := load_info_header (field 14 40 file_2x3) in
  let w := bi_width ih in
  let h := bi_height ih in
  let passes := (rows_read h * pairs_read w)%nat in
  convert_bmp_24_to_4_depth 5 (Some file_2x3) true fh_zeroed ih_zeroed
  = Some {| cerr := None;
            output_file :=
              Some ([x42; x4d]
                    ++ le_bytes 4 ((4 * (w / 8) * (h mod 2 ^ 32) + 54) mod 2 ^ 32)
                    ++ field 6 4 file_2x3
                    ++ le_bytes 4 ((le_uint (field 10 4 file_2x3) + 64) mod 2 ^ 32)
                    ++ field 14 14 file_2x3 ++ [x04; x00] ++ field 30 24 file_2x3
                    ++ palette_bytes
                    ++ pack_pairs passes
                         (skipn 54 file_2x3 ++ repeat x00 (6 * passes))) |}.
Proof.
  apply (converter_output file_2x3 fh_zeroed ih_zeroed 5).
  - vm_compute. lia.
  - vm_compute. reflexivity.
  - vm_compute. reflexivity.
  - vm_compute. split; [discriminate|reflexivity].
  - vm_compute. lia.
Defined.

Lemma field_le_uint_range off len (m : list byte) :
  0 <= le_uint (field off len m) < 256 ^ Z.of_nat len.
Proof.
  pose proof (le_uint_range (field off len m)) as H.
  assert (Hl : (length (field off len m) <= len)%nat)
    by (unfold field; rewrite length_firstn; lia).
  assert (256 ^ Z.of_nat (length (field off len m)) <= 256 ^ Z.of_nat len)
    by (apply Z.pow_le_mono_r; lia).
  lia.
Qed.

Lemma updated_file_header_in_range (m : list byte) (ih : bitmap_info_header) :
  file_header_in_range (update_file_header (load_file_header m) ih).
Proof.
  unfold file_header_in_range, update_file_header, load_file_header.
  cbn [bf_type bf_size bf_reserved1 bf_reserved2 bf_off_bits].
  pose proof (field_le_uint_range 0 2 m). pose proof (field_le_uint_range 6 2 m).
  pose proof (field_le_uint_range 8 2 m).
  change (256 ^ Z.of_nat 2) with (2 ^ 16) in *.
  unfold to_uint32.
  repeat split; try lia; apply Z.mod_pos_bound; lia.
Qed.

(** The file header lies at bytes 0..13 of whatever starts with the headers. *)
Lemma field_file_header fh ih tail :
  field 0 14 (written_before_pixels fh ih ++ tail)
  = store_file_header (update_file_header fh ih).
Proof.
  unfold written_before_pixels. rewrite <- !app_assoc.
  rewrite field_app_l by (rewrite store_file_header_length; lia).
  rewrite <- (store_file_header_length (update_file_header fh ih)) at 1.
  apply field_all.
Qed.

Lemma skipn_written_before_pixels fh ih tail :
  skipn 118 (written_before_pixels fh ih ++ tail) = tail.
Proof.
  rewrite skipn_app, written_before_pixels_length, Nat.sub_diag.
  rewrite skipn_all2 by (rewrite written_before_pixels_length; lia).
  reflexivity.
Qed.

(** X5: the size field written is always short of the file written.  For an
    accepted image of width [w], from 0 to 2^29 - 1, and height [h], not
    negative, the output is [118 + h * ((w + 1) / 2)] bytes long, however
    long the input is, and its size field holds [4 * (w / 8) * h + 54]
    modulo 2^32, which is at least 64 less. *)
Theorem size_field_short_of_length (file fh_object ih_object : list byte) (fuel : nat) :
  let ih := load_info_header (field 14 40 file) in
  let w := bi_width ih in
  let h := bi_height ih in
  (54 <= length file)%nat ->
  bf_type (load_file_header (field 0 14 file)) = constants.BMP_SIGNATURE ->
  bi_bit_count ih = 24 ->
  0 <= w < 2 ^ 29 ->
  0 <= h ->
  (rows_read h + pairs_read w < fuel)%nat ->
  exists out : list byte,
    convert_bmp_24_to_4_depth fuel (Some file) true fh_object ih_object
    = Some {| cerr := None; output_file := Some out |}
    /\ Z.of_nat (length out) = 118 + h * ((w + 1) / 2)
    /\ bf_size (load_file_header (field 0 14 out)) = (4 * (w / 8) * h + 54) mod 2 ^ 32
    /\ bf_size (load_file_header (field 0 14 out)) + 64 <= Z.of_nat (length out).
Proof.
  intros ih w h Hlen Hsig Hbits Hw Hh Hfuel.
  pose proof (to_int32_range (le_uint (field 8 4 (field 14 40 file)))) as Hhr.
  change (to_int32 (le_uint (field 8 4 (field 14 40 file)))) with h in Hhr.
  eexists. split.
  { apply convert_whole; try assumption. fold ih w. lia. }
  fold ih w h.
  pose proof (pairs_read_nonneg w ltac:(lia)) as Hp.
  pose proof (rows_read_nonneg h ltac:(lia)) as Hr.
  assert (Hlength :
    Z.of_nat (length (written_before_pixels (load_file_header (field 0 14 file)) ih
                      ++ pack_pairs (rows_read h * pairs_read w)
                           (skipn 54 file ++ repeat x00 (6 * (rows_read h * pairs_read w)))))
    = 118 + h * ((w + 1) / 2)).
  { rewrite length_app, written_before_pixels_length, pack_pairs_length. nia. }
  assert (Hsize :
    bf_size (load_file_header
               (field 0 14
                  (written_before_pixels (load_file_header (field 0 14 file)) ih
                   ++ pack_pairs (rows_read h * pairs_read w)
                        (skipn 54 file ++ repeat x00 (6 * (rows_read h * pairs_read w))))))
    = (4 * (w / 8) * h + 54) mod 2 ^ 32).
  { rewrite field_file_header, load_store_file_header
      by apply updated_file_header_in_range.
    rewrite bf_size_written_mod by (fold w; lia). fold w h.
    rewrite (Z.mod_small h) by lia. reflexivity. }
  split; [exact Hlength|]. split; [exact Hsize|].
  rewrite Hsize, Hlength.
  pose proof (Z.div_mod w 8 ltac:(lia)). pose proof (Z.mod_pos_bound w 8 ltac:(lia)).
  pose proof (Z.div_mod (w + 1) 2 ltac:(lia)).
  pose proof (Z.mod_pos_bound (w + 1) 2 ltac:(lia)).
  assert (Hrow : 4 * (w / 8) <= (w + 1) / 2) by lia.
  assert (Hq : 0 <= w / 8) by lia.
  assert (Hqh : 0 <= w / 8 * h) by (apply Z.mul_nonneg_nonneg; lia).
  assert (Hnn : 0 <= 4 * (w / 8) * h + 54) by lia.
  pose proof (Z.mod_le (4 * (w / 8) * h + 54) (2 ^ 32) Hnn ltac:(lia)) as Hle.
  pose proof (Z.mul_le_mono_nonneg_r _ _ h Hh Hrow) as Hrows.
  lia.
Qed.

Lemma size_field_short_of_length_witness :
  let ih := load_info_header (field 14 40 file_2x3) in
  let w := bi_width ih in
  let h := bi_height ih in
  exists out : list byte,
    convert_bmp_24_to_4_depth 5 (Some file_2x3) true fh_zeroed ih_zeroed
    = Some {| cerr := None; output_file := Some out |}
    /\ Z.of_nat (length out) = 118 + h * ((w + 1) / 2)
    /\ bf_size (load_file_header (field 0 14 out)) = (4 * (w / 8) * h + 54) mod 2 ^ 32
    /\ bf_size (load_file_header (field 0 14 out)) + 64 <= Z.of_nat (length out).
Proof.
  apply (size_field_short_of_length file_2x3 fh_zeroed ih_zeroed 5).
  - vm_compute. lia.
  - vm_compute. reflexivity.
  - vm_compute. reflexivity.
  - vm_compute. split; [discriminate|reflexivity].
  - vm_compute. discriminate.
  - vm_compute. lia.
Defined.

(** X6: the file header written for an accepted file keeps the signature
    and the two reserved fields of the input byte for byte; its offset field
    holds the offset of the input plus 64, modulo 2^32.  The pixel data of
    the output starts at byte 118 whatever that offset is, so that the offset
    written is the right one when the offset of the input is 54. *)
Theorem file_header_written (file fh_object ih_object : list byte) (fuel : nat) :
  let ih := load_info_header (field 14 40 file) in
  let passes := (rows_read (bi_height ih) * pairs_read (bi_width ih))%nat in
  (54 <= length file)%nat ->
  bf_type (load_file_header (field 0 14 file)) = constants.BMP_SIGNATURE ->
  bi_bit_count ih = 24 ->
  bi_width ih <> -1 ->
  (rows_read (bi_height ih) + pairs_read (bi_width ih) < fuel)%nat ->
  exists out : list byte,
    convert_bmp_24_to_4_depth fuel (Some file) true fh_object ih_object
    = Some {| cerr := None; output_file := Some out |}
    /\ field 0 2 out = field 0 2 file
    /\ field 6 4 out = field 6 4 file
    /\ le_uint (field 10 4 out) = (le_uint (field 10 4 file) + 64) mod 2 ^ 32
    /\ skipn 118 out
       = pack_pairs passes (skipn 54 file ++ repeat x00 (6 * passes))
    /\ (le_uint (field 10 4 file) = 54 -> le_uint (field 10 4 out) = 118).
Proof.
  intros ih passes Hlen Hsig Hbits Hw Hfuel.
  eexists. split; [apply convert_whole; assumption|].
  fold ih passes.
  set (tail := pack_pairs passes (skipn 54 file ++ repeat x00 (6 * passes))).
  set (fh := load_file_header (field 0 14 file)).
  assert (Hhead : forall off len, (off + len <= 14)%nat ->
            field off len (written_before_pixels fh ih ++ tail)
            = field off len (store_file_header (update_file_header fh ih))).
  { intros off len Hol. unfold written_before_pixels. rewrite <- !app_assoc.
    apply field_app_l. rewrite store_file_header_length. exact Hol. }
  assert (Hoff : le_uint (field 10 4 (written_before_pixels fh ih ++ tail))
                 = (le_uint (field 10 4 file) + 64) mod 2 ^ 32).
  { rewrite Hhead by lia. unfold store_file_header. load_field.
    rewrite le_uint_le_bytes_small.
    - unfold update_file_header, fh, load_file_header. cbn [bf_off_bits].
      rewrite field_field by lia. reflexivity.
    - unfold update_file_header. cbn [bf_off_bits].
      change (256 ^ Z.of_nat 4) with (2 ^ 32). apply Z.mod_pos_bound. lia. }
  split; [|split; [|split; [exact Hoff|split]]].
  - rewrite Hhead by lia. unfold store_file_header. load_field.
    unfold update_file_header, fh, load_file_header. cbn [bf_type].
    rewrite store_load_unsigned by (rewrite field_length; lia).
    apply field_field. lia.
  - rewrite Hhead by lia. unfold store_file_header.
    unfold update_file_header, fh, load_file_header.
    cbn [bf_type bf_size bf_reserved1 bf_reserved2 bf_off_bits].
    replace (field 6 4 file) with (field 6 2 file ++ field 8 2 file)
      by apply (field_app 6 2 2).
    match goal with |- field 6 4 ?l = _ =>
      replace (field 6 4 l) with (field 6 2 l ++ field 8 2 l)
        by apply (field_app 6 2 2) end.
    f_equal.
    + load_field. rewrite store_load_unsigned by (rewrite field_length; lia).
      apply field_field. lia.
    + load_field. rewrite store_load_unsigned by (rewrite field_length; lia).
      apply field_field. lia.
  - apply skipn_written_before_pixels.
  - intros H54. rewrite Hoff, H54. reflexivity.
Qed.

Lemma file_header_written_witness :
  let ih := load_info_header (field 14 40 file_2x3) in
  let passes := (rows_read (bi_height ih) * pairs_read (bi_width ih))%nat in
  exists out : list byte,
    convert_bmp_24_to_4_depth 5 (Some file_2x3) true fh_zeroed ih_zeroed
    = Some {| cerr := None; output_file := Some out |}
    /\ field 0 2 out = field 0 2 file_2x3
    /\ field 6 4 out = field 6 4 file_2x3
    /\ le_uint (field 10 4 out) = (le_uint (field 10 4 file_2x3) + 64) mod 2 ^ 32
    /\ skipn 118 out
       = pack_pairs passes (skipn 54 file_2x3 ++ repeat x00 (6 * passes))
    /\ (le_uint (field 10 4 file_2x3) = 54 -> le_uint (field 10 4 out) = 118).
Proof.
  apply (file_header_written file_2x3 fh_zeroed ih_zeroed 5).
  - vm_compute. lia.
  - vm_compute. reflexivity.
  - vm_compute. reflexivity.
  - vm_compute. discriminate.
  - vm_compute. lia.
Defined.

(** ** The converter and the tester together *)

(** X7: the tester run on the output of the converter accepts it and
    reports the width and the height of the input and 4 bits per pixel,
    whatever its header objects held before. *)
Theorem converted_file_tested (file fh_object ih_object : list byte) (fuel : nat)
    (fh_object' ih_object' : list byte) :
  let ih := load_info_header (field 14 40 file) in
  (54 <= length file)%nat ->
  bf_type (load_file_header (field 0 14 file)) = constants.BMP_SIGNATURE ->
  bi_bit_count ih = 24 ->
  bi_width ih <> -1 ->
  (rows_read (bi_height ih) + pairs_read (bi_width ih) < fuel)%nat ->
  exists out : list byte,
    convert_bmp_24_to_4_depth fuel (Some file) true fh_object ih_object
    = Some {| cerr := None; output_file := Some out |}
    /\ tester.main (Some out) fh_object' ih_object'
       = (tester.EXIT_SUCCESS, tester.Dimensions (bi_width ih) (bi_height ih) 4).
Proof.
  intros ih Hlen Hsig Hbits Hw Hfuel.
  eexists. split; [apply convert_whole; assumption|].
  fold ih.
  set (fh := load_file_header (field 0 14 file)) in *.
  set (tail := pack_pairs _ _).
  rewrite tester_unfold. cbv zeta.
  destruct (headers_of_whole_file fh_object' ih_object'
              (written_before_pixels fh ih ++ tail)) as (Hfh & Hih & _).
  { rewrite length_app, written_before_pixels_length. lia. }
  rewrite Hfh, Hih, field_file_header, field_info_header.
  rewrite load_store_file_header by apply updated_file_header_in_range.
  unfold ih at 1 2 3.
  rewrite store_update_info_header, load_updated_info_header
    by (apply field_length; lia).
  fold ih. cbn [update_file_header update_info_header bf_type bi_width bi_height
                bi_bit_count].
  rewrite Hsig. reflexivity.
Qed.

Lemma converted_file_tested_witness :
  let ih := load_info_header (field 14 40 file_2x3) in
  exists out : list byte,
    convert_bmp_24_to_4_depth 5 (Some file_2x3) true fh_zeroed ih_zeroed
    = Some {| cerr := None; output_file := Some out |}
    /\ tester.main (Some out) fh_zeroed ih_zeroed
       = (tester.EXIT_SUCCESS, tester.Dimensions (bi_width ih) (bi_height ih) 4).
Proof.
  apply (converted_file_tested file_2x3 fh_zeroed ih_zeroed 5 fh_zeroed ih_zeroed).
  - vm_compute. lia.
  - vm_compute. reflexivity.
  - vm_compute. reflexivity.
  - vm_compute. discriminate.
  - vm_compute. lia.
Defined.

(** X8: the pixel data written depends on the input through its width, its
    height and the bytes that follow its headers, and through nothing else:
    two accepted files that agree on these give the same bytes from offset
    118 on, whatever their size, offset, compression, resolution and colour
    count fields hold. *)
Theorem pixel_data_ignores_other_fields
    (file1 file2 fh_object ih_object : list byte) (fuel : nat) :
  let ih1 := load_info_header (field 14 40 file1) in
  let ih2 := load_info_header (field 14 40 file2) in
  (54 <= length file1)%nat ->
  (54 <= length file2)%nat ->
  bf_type (load_file_header (field 0 14 file1)) = constants.BMP_SIGNATURE ->
  bf_type (load_file_header (field 0 14 file2)) = constants.BMP_SIGNATURE ->
  bi_bit_count ih1 = 24 ->
  bi_bit_count ih2 = 24 ->
  bi_width ih1 = bi_width ih2 ->
  bi_height ih1 = bi_height ih2 ->
  skipn 54 file1 = skipn 54 file2 ->
  bi_width ih1 <> -1 ->
  (rows_read (bi_height ih1) + pairs_read (bi_width ih1) < fuel)%nat ->
  exists out1 out2 : list byte,
    convert_bmp_24_to_4_depth fuel (Some file1) true fh_object ih_object
    = Some {| cerr := None; output_file := Some out1 |}
    /\ convert_bmp_24_to_4_depth fuel (Some file2) true fh_object ih_object
       = Some {| cerr := None; output_file := Some out2 |}
    /\ skipn 118 out1 = skipn 118 out2.
Proof.
  intros ih1 ih2 Hl1 Hl2 Hs1 Hs2 Hb1 Hb2 Hw Hh Hpix Hw1 Hfuel.
  do 2 eexists. split; [apply convert_whole; assumption|].
  split.
  - apply convert_whole; try assumption; fold ih2; rewrite <- ?Hw, <- ?Hh; assumption.
  - fold ih1 ih2. rewrite !skipn_written_before_pixels, Hw, Hh, Hpix. reflexivity.
Qed.

Lemma pixel_data_ignores_other_fields_witness :
  exists out1 out2 : list byte,
    convert_bmp_24_to_4_depth 3 (Some file_2x1) true fh_zeroed ih_zeroed
    = Some {| cerr := None; output_file := Some out1 |}
    /\ convert_bmp_24_to_4_depth 3 (Some file_2x1_other_fields) true fh_zeroed ih_zeroed
       = Some {| cerr := None; output_file := Some out2 |}
    /\ skipn 118 out1 = skipn 118 out2.
Proof.
  apply (pixel_data_ignores_other_fields file_2x1 file_2x1_other_fields
           fh_zeroed ih_zeroed 3).
  - vm_compute. lia.
  - vm_compute. lia.
  - vm_compute. reflexivity.
  - vm_compute. reflexivity.
  - vm_compute. reflexivity.
  - vm_compute. reflexivity.
  - vm_compute. reflexivity.
  - vm_compute. reflexivity.
  - vm_compute. reflexivity.
  - vm_compute. discriminate.
  - vm_compute. lia.
Defined.

(** ** The quantizer on any palette *)

Lemma sq_distance_nonneg color1 color2 : 0 <= sq_distance color1 color2.
Proof. apply sq_distance_range. Qed.

(** A squared distance of zero is the distance to the same colour. *)
Lemma sq_distance_zero (color : rgb_triple) (q : rgb_quad) :
  sq_distance color q = 0 <-> triple_of_quad q = color.
Proof.
  unfold sq_distance, triple_of_quad. destruct color as [b g r], q as [qb qg qr qa].
  cbn [rgbBlue rgbGreen rgbRed rgbtBlue rgbtGreen rgbtRed]. split.
  - intros H.
    set (db := u8 qb - u8 b) in *. set (dg := u8 qg - u8 g) in *.
    set (dr := u8 qr - u8 r) in *.
    pose proof (Z.square_nonneg db) as Hb. pose proof (Z.square_nonneg dg) as Hg.
    pose proof (Z.square_nonneg dr) as Hr.
    assert (Zb : db * db = 0) by lia. assert (Zg : dg * dg = 0) by lia.
    assert (Zr : dr * dr = 0) by lia.
    apply Z.mul_eq_0 in Zb, Zg, Zr.
    assert (u8 qb = u8 b /\ u8 qg = u8 g /\ u8 qr = u8 r) as (Eb & Eg & Er)
      by (subst db dg dr; lia).
    apply u8_inj in Eb, Eg, Er. subst. reflexivity.
  - intros H. injection H as -> -> ->. lia.
Qed.

(** The byte returned, on any palette: the position found on exact squared
    distances, cut to the eight bits of a [std::byte]. *)
Lemma find_closest_color_any (color : rgb_triple) (pal : list rgb_quad) :
  utils.find_closest_color color pal = Z.of_nat (nearest_exact color pal) mod 256.
Proof.
  unfold utils.find_closest_color, to_uint8, nearest_exact.
  change (2 ^ 8) with 256. do 2 f_equal.
  apply min_element_ext. intros x y. apply distance_to_color_exact.
Qed.

(** X9: on any palette of one to 256 entries the byte returned is the
    position of the first entry at least squared distance from the colour;
    on a longer palette the position is cut to its low eight bits, and on an
    empty palette the byte is 0, the position of no entry. *)
Theorem find_closest_color_on_any_palette (color : rgb_triple) (pal : list rgb_quad) :
  let entry := fun j : nat => nth j pal (quad x00 x00 x00 x00) in
  exists i : nat,
    utils.find_closest_color color pal = Z.of_nat i mod 256
    /\ (pal = [] -> i = 0%nat)
    /\ (pal <> [] ->
        (i < length pal)%nat
        /\ (forall j, (j < length pal)%nat ->
              sq_distance color (entry i) <= sq_distance color (entry j))
        /\ (forall j, (j < i)%nat ->
              sq_distance color (entry i) < sq_distance color (entry j)))
    /\ ((length pal <= 256)%nat -> utils.find_closest_color color pal = Z.of_nat i).
Proof.
  intros entry. exists (nearest_exact color pal).
  split; [apply find_closest_color_any|].
  split; [intros ->; reflexivity|].
  split.
  - intros Hne.
    apply (min_element_least (sq_distance color) (quad x00 x00 x00 x00) pal Hne).
  - intros Hlen. rewrite find_closest_color_any.
    destruct pal as [|q pal']; [reflexivity|].
    pose proof (min_element_bound
                  (fun lhs rhs => sq_distance color lhs <? sq_distance color rhs)
                  (q :: pal') ltac:(discriminate)) as Hb.
    fold (nearest_exact color (q :: pal')) in Hb.
    apply Z.mod_small. lia.
Qed.

(** The position found for the colour of entry [i] when no earlier entry
    has that colour. *)
Lemma nearest_exact_of_entry (pal : list rgb_quad) (i : nat) :
  let entry := fun j : nat => nth j pal (quad x00 x00 x00 x00) in
  (i < length pal)%nat ->
  (forall j, (j < i)%nat -> triple_of_quad (entry j) <> triple_of_quad (entry i)) ->
  nearest_exact (triple_of_quad (entry i)) pal = i.
Proof.
  intros entry Hi Hfresh.
  assert (Hne : pal <> []) by (destruct pal; [cbn in Hi; lia|discriminate]).
  destruct (min_element_least (sq_distance (triple_of_quad (entry i)))
              (quad x00 x00 x00 x00) pal Hne) as (Hlt & Hle & Hfirst).
  fold (nearest_exact (triple_of_quad (entry i)) pal) in Hlt, Hle, Hfirst.
  set (i0 := nearest_exact (triple_of_quad (entry i)) pal) in *.
  assert (Hzero : sq_distance (triple_of_quad (entry i)) (entry i) = 0)
    by (apply sq_distance_zero; reflexivity).
  fold (entry i) in Hle, Hfirst. fold (entry i0) in Hle, Hfirst.
  assert (Hz0 : sq_distance (triple_of_quad (entry i)) (entry i0) = 0).
  { specialize (Hle i Hi). fold (entry i) in Hle.
    pose proof (sq_distance_nonneg (triple_of_quad (entry i)) (entry i0)). lia. }
  destruct (Nat.lt_trichotomy i0 i) as [Hlow|[Heq|Hhigh]].
  - exfalso. apply (Hfresh i0 Hlow). apply sq_distance_zero. exact Hz0.
  - exact Heq.
  - exfalso. specialize (Hfirst i Hhigh). fold (entry i) in Hfirst. lia.
Qed.

(** X10: a pixel that has the colour of a palette entry is given the index
    of the first entry of that colour: on any palette of at most 256
    entries, the index of entry [i] when no earlier entry has its colour.
    The sixteen colours of the converter's palette are all different, so
    each of them is given its own index. *)
Theorem palette_colours_keep_their_index :
  (forall (pal : list rgb_quad) (i : nat),
      (length pal <= 256)%nat ->
      (i < length pal)%nat ->
      (forall j, (j < i)%nat ->
         triple_of_quad (nth j pal (quad x00 x00 x00 x00))
         <> triple_of_quad (nth i pal (quad x00 x00 x00 x00))) ->
      utils.find_closest_color
        (triple_of_quad (nth i pal (quad x00 x00 x00 x00))) pal = Z.of_nat i)
  /\ (forall i : nat,
        (i < 16)%nat ->
        utils.find_closest_color
          (triple_of_quad (nth i palette (quad x00 x00 x00 x00))) palette
        = Z.of_nat i).
Proof.
  assert (Hgen : forall (pal : list rgb_quad) (i : nat),
      (length pal <= 256)%nat ->
      (i < length pal)%nat ->
      (forall j, (j < i)%nat ->
         triple_of_quad (nth j pal (quad x00 x00 x00 x00))
         <> triple_of_quad (nth i pal (quad x00 x00 x00 x00))) ->
      utils.find_closest_color
        (triple_of_quad (nth i pal (quad x00 x00 x00 x00))) pal = Z.of_nat i).
  { intros pal i Hlen Hi Hfresh.
    rewrite find_closest_color_any, nearest_exact_of_entry by assumption.
    apply Z.mod_small. lia. }
  split; [exact Hgen|].
  intros i Hi. apply Hgen; [cbn; lia|exact Hi|].
  intros j Hj.
  do 16 (destruct i as [|i];
         [do 16 (destruct j as [|j]; [try lia; cbn; discriminate|]); lia|]).
  cbn in Hi. lia.
Qed.

(** X11: the distances [find_closest_color] compares as [double]s order the
    palette entries exactly as the integer squared distances do: one
    distance is below another exactly when the squared distance is, and two
    distances are the same [double] exactly when the squared distances are
    equal.  Squaring, adding and taking the root in [double] lose no
    comparison. *)
Theorem color_distance_orders_as_squares (color : rgb_triple) (lhs rhs : rgb_quad) :
  (utils.color_distance color lhs <? utils.color_distance color rhs)%float
  = (sq_distance color lhs <? sq_distance color rhs)
  /\ (utils.color_distance color lhs = utils.color_distance color rhs
      <-> sq_distance color lhs = sq_distance color rhs).
Proof.
  split; [apply distance_to_color_exact|]. split.
  - intros Heq.
    pose proof (distance_to_color_exact color lhs rhs) as H1.
    rewrite Heq in H1.
    rewrite FloatAxioms.ltb_spec, SFltb_irrefl in H1.
    symmetry in H1. apply Z.ltb_ge in H1.
    assert (H3 : (sq_distance color rhs <? sq_distance color lhs) = false).
    { rewrite <- (distance_to_color_exact color rhs lhs), Heq.
      rewrite FloatAxioms.ltb_spec. apply SFltb_irrefl. }
    apply Z.ltb_ge in H3. lia.
  - intros Heq. rewrite !color_distance_root, Heq. reflexivity.
Qed.

(** ** The byte made of two pixels *)

Lemma nibbles_or (i j : nat) :
  (i < 16)%nat -> (j < 16)%nat ->
  byte_or (byte_shl (Z.of_nat i) 4) (Z.of_nat j) = 16 * Z.of_nat i + Z.of_nat j.
Proof.
  intros Hi Hj.
  do 16 (destruct i as [|i]; [do 16 (destruct j as [|j]; [reflexivity|]); lia|]).
  lia.
Qed.

(** X12: the byte written for a pair of pixels holds the palette index of
    the left pixel (bytes 0..2 of the pair) in its high four bits and the
    index of the right pixel (bytes 3..5) in its low four bits: both indices
    are below 16, the shift loses no bit of the left one, and the two are
    read back from the byte by dividing by 16. *)
Theorem two_pixels_nibbles (pixels : list byte) :
  let left := utils.find_closest_color (left_pixel pixels) palette in
  let right := utils.find_closest_color (right_pixel pixels) palette in
  0 <= left < 16
  /\ 0 <= right < 16
  /\ u8 (two_pixels pixels) = 16 * left + right
  /\ u8 (two_pixels pixels) / 16 = left
  /\ u8 (two_pixels pixels) mod 16 = right.
Proof.
  cbv zeta. unfold two_pixels, left_pixel, right_pixel.
  destruct (find_closest_color_exact (load_rgb_triple (field 0 3 pixels))) as [-> Hi].
  destruct (find_closest_color_exact (load_rgb_triple (field 3 3 pixels))) as [-> Hj].
  set (i := nearest_exact (load_rgb_triple (field 0 3 pixels)) palette) in *.
  set (j := nearest_exact (load_rgb_triple (field 3 3 pixels)) palette) in *.
  rewrite nibbles_or by assumption. rewrite u8_of_Z.
  rewrite (Z.mod_small (16 * Z.of_nat i + Z.of_nat j) 256) by lia.
  repeat split; try lia.
  - rewrite Z.mul_comm, Z.div_add_l by lia. rewrite Z.div_small by lia. lia.
  - rewrite Z.add_comm, Z.mul_comm, Z.mod_add by lia. apply Z.mod_small. lia.
Qed.

(** ** The tester *)

(** X13: the tester accepts any file of 54 bytes or more that starts with
    the bytes 0x42 0x4D, and prints three fields of it, read little-endian:
    the signed 32-bit width at offset 18, the signed 32-bit height at offset
    22, and the 16-bit bit count at offset 28.  Nothing else of the file is
    looked at; the bit count is not checked. *)
Theorem tester_reports_header_fields (file fh_object ih_object : list byte) :
  (54 <= length file)%nat ->
  field 0 2 file = [x42; x4d] ->
  tester.main (Some file) fh_object ih_object
  = (tester.EXIT_SUCCESS,
     tester.Dimensions (to_int32 (le_uint (field 18 4 file)))
                       (to_int32 (le_uint (field 22 4 file)))
                       (le_uint (field 28 2 file))).
Proof.
  intros Hlen Hsig. rewrite tester_unfold. cbv zeta.
  destruct (headers_of_whole_file fh_object ih_object file Hlen) as (-> & -> & _).
  unfold load_file_header, load_info_header.
  cbn [bf_type bi_width bi_height bi_bit_count].
  rewrite !field_field by lia. cbn [Nat.add].
  rewrite Hsig. reflexivity.
Qed.

Lemma tester_reports_header_fields_witness :
  tester.main (Some file_32_bits) fh_zeroed ih_zeroed
  = (tester.EXIT_SUCCESS,
     tester.Dimensions (to_int32 (le_uint (field 18 4 file_32_bits)))
                       (to_int32 (le_uint (field 22 4 file_32_bits)))
                       (le_uint (field 28 2 file_32_bits)))
  /\ le_uint (field 28 2 file_32_bits) = 32.
Proof.
  split.
  - apply (tester_reports_header_fields file_32_bits fh_zeroed ih_zeroed).
    + vm_compute. lia.
    + vm_compute. reflexivity.
  - vm_compute. reflexivity.
Defined.

(** X14: the tester does not check that its two reads succeeded.  On a file
    of fewer than 14 bytes that starts with 0x42 0x4D the first read comes up
    short, the second reads nothing, and the tester still exits with
    [EXIT_SUCCESS]: the width, height and bit count it prints are what the
    info header object held before the read, none of them from the file. *)
Theorem tester_on_short_file (rest fh_object ih_object : list byte) :
  (length (x42 :: x4d :: rest) < 14)%nat ->
  tester.main (Some (x42 :: x4d :: rest)) fh_object ih_object
  = (tester.EXIT_SUCCESS,
     tester.Dimensions (bi_width (load_info_header ih_object))
                       (bi_height (load_info_header ih_object))
                       (bi_bit_count (load_info_header ih_object))).
Proof.
  intros Hlen. rewrite tester_unfold. cbv zeta.
  rewrite bf_type_first_two_bytes.
  change (u8 x42 + 256 * u8 x4d =? tester.bmp_signature) with true. cbn [negb].
  unfold info_header_read, read_headers, ifstream_open, ifstream_read.
  cbn [good unread].
  destruct (Nat.leb_spec sizeof_bitmap_file_header (length (x42 :: x4d :: rest)))
    as [Hge|_]; [unfold sizeof_bitmap_file_header in Hge; lia|].
  cbn [good fst snd]. reflexivity.
Qed.

Lemma tester_on_short_file_witness :
  tester.main (Some [x42; x4d; x01; x02]) fh_zeroed ih_zeroed
  = (tester.EXIT_SUCCESS,
     tester.Dimensions (bi_width (load_info_header ih_zeroed))
                       (bi_height (load_info_header ih_zeroed))
                       (bi_bit_count (load_info_header ih_zeroed))).
Proof.
  apply (tester_on_short_file [x01; x02] fh_zeroed ih_zeroed).
  cbn. lia.
Defined.

(** ** What every run of the converter leaves *)

Lemma column_loop_extends fuel w :
  forall column st st',
    column_loop fuel w column st = Some st' ->
    exists tail, written st' = written st ++ tail.
Proof.
  induction fuel as [|fuel IH]; intros column st st' H; [discriminate|].
  cbn [column_loop] in H.
  destruct (column <? to_size_t w).
  - apply IH in H. destruct H as [tail ->].
    unfold column_step. destruct (ifstream_read 6 fresh_pixels (input_file st)) as [p s].
    cbn [written]. rewrite <- app_assoc. eexists. reflexivity.
  - injection H as <-. exists []. symmetry. apply app_nil_r.
Qed.

Lemma row_loop_extends fuel w h :
  forall row st st',
    row_loop fuel w h row st = Some st' ->
    exists tail, written st' = written st ++ tail.
Proof.
  induction fuel as [|fuel IH]; intros row st st' H; [discriminate|].
  cbn [row_loop] in H.
  destruct (row <? to_size_t h).
  - destruct (column_loop (S fuel) w 0 st) as [st1|] eqn:Hc; [|discriminate].
    apply column_loop_extends in Hc. destruct Hc as [t1 E1].
    apply IH in H. destruct H as [t2 ->]. rewrite E1, <- app_assoc.
    eexists. reflexivity.
  - injection H as <-. exists []. symmetry. apply app_nil_r.
Qed.

(** X15: a run of the converter that returns either prints one diagnostic
    and leaves no output file, or prints none and leaves an output file.  An
    output file is only left when the input was opened, the output could be
    opened, the signature is the BMP one and the bit count is 24; it is at
    least 118 bytes long and holds the sixteen-colour palette table at bytes
    54..117, whatever the width and height fields of the input are and
    however short the input is. *)
Theorem outcome_of_a_run (fuel : nat) (input : option (list byte))
    (output_opens : bool) (fh_object ih_object : list byte) (r : outcome) :
  convert_bmp_24_to_4_depth fuel input output_opens fh_object ih_object = Some r ->
  match cerr r with
  | Some _ => output_file r = None
  | None =>
      exists file out,
        input = Some file
        /\ output_opens = true
        /\ bf_type (file_header_read fh_object ih_object file) = 0x4D42
        /\ bi_bit_count (info_header_read fh_object ih_object file) = 24
        /\ output_file r = Some out
        /\ (118 <= length out)%nat
        /\ field 54 64 out = palette_bytes
  end.
Proof.
  intros H. destruct input as [file|]; [|injection H as <-; reflexivity].
  rewrite convert_unfold in H. cbv zeta in H.
  destruct (bf_type _ =? constants.BMP_SIGNATURE) eqn:Hsig; cbn [negb] in H;
    [|injection H as <-; reflexivity].
  destruct (bi_bit_count _ =? 24) eqn:Hbits; cbn [negb] in H;
    [|injection H as <-; reflexivity].
  destruct output_opens; cbn [negb] in H; [|injection H as <-; reflexivity].
  destruct (row_loop _ _ _ _ _) as [st|] eqn:Hloop; [|discriminate].
  injection H as <-. cbn [cerr output_file].
  apply row_loop_extends in Hloop. destruct Hloop as [tail Hw].
  cbn [written] in Hw.
  exists file, (written st).
  apply Z.eqb_eq in Hsig, Hbits.
  repeat (split; [first [reflexivity|assumption]|]).
  split.
  - rewrite Hw, length_app, written_before_pixels_length. lia.
  - rewrite Hw. rewrite field_app_l by (rewrite written_before_pixels_length; lia).
    unfold written_before_pixels. rewrite app_assoc.
    rewrite field_app_r
      by (rewrite length_app, store_file_header_length, store_info_header_length; lia).
    rewrite length_app, store_file_header_length, store_info_header_length.
    apply field_whole. reflexivity.
Qed.

Lemma outcome_of_a_run_witness :
  exists r,
    convert_bmp_24_to_4_depth 3 (Some file_1x1) true fh_zeroed ih_zeroed = Some r
    /\ match cerr r with
       | Some _ => output_file r = None
       | None =>
           exists file out,
             Some file_1x1 = Some file
             /\ true = true
             /\ bf_type (file_header_read fh_zeroed ih_zeroed file) = 0x4D42
             /\ bi_bit_count (info_header_read fh_zeroed ih_zeroed file) = 24
             /\ output_file r = Some out
             /\ (118 <= length out)%nat
             /\ field 54 64 out = palette_bytes
       end.
Proof.
  destruct (convert_bmp_24_to_4_depth 3 (Some file_1x1) true fh_zeroed ih_zeroed)
    as [r|] eqn:E.
  - exists r. split; [reflexivity|].
    apply (outcome_of_a_run 3 (Some file_1x1) true fh_zeroed ih_zeroed r E).
  - vm_compute in E. discriminate.
Defined.

(** ** Converting twice *)

Lemma bf_type_load_store (h : bitmap_file_header) :
  bf_type (load_file_header (store_file_header h)) = bf_type h mod 2 ^ 16.
Proof.
  unfold load_file_header, store_file_header. cbn [bf_type].
  load_field. rewrite le_uint_le_bytes. reflexivity.
Qed.

Lemma bi_bit_count_load_store (h : bitmap_info_header) :
  bi_bit_count (load_info_header (store_info_header h)) = bi_bit_count h mod 2 ^ 16.
Proof.
  unfold load_info_header, store_info_header. cbn [bi_bit_count].
  load_field. rewrite le_uint_le_bytes. reflexivity.
Qed.

(** An output file starts with the updated headers and the palette. *)
Lemma output_of_a_run (fuel : nat) (input : option (list byte))
    (output_opens : bool) (fh_object ih_object : list byte) (r : outcome)
    (out : list byte) :
  convert_bmp_24_to_4_depth fuel input output_opens fh_object ih_object = Some r ->
  output_file r = Some out ->
  exists file tail,
    input = Some file
    /\ bf_type (file_header_read fh_object ih_object file) = constants.BMP_SIGNATURE
    /\ out = written_before_pixels (file_header_read fh_object ih_object file)
               (info_header_read fh_object ih_object file) ++ tail.
Proof.
  intros H Hout. destruct input as [file|]; [|injection H as <-; discriminate].
  rewrite convert_unfold in H. cbv zeta in H.
  destruct (bf_type _ =? constants.BMP_SIGNATURE) eqn:Hsig; cbn [negb] in H;
    [|injection H as <-; discriminate].
  destruct (negb (bi_bit_count _ =? 24)); [injection H as <-; discriminate|].
  destruct (negb output_opens); [injection H as <-; discriminate|].
  destruct (row_loop _ _ _ _ _) as [st|] eqn:Hloop; [|discriminate].
  injection H as <-. cbn [output_file] in Hout. injection Hout as <-.
  apply row_loop_extends in Hloop. destruct Hloop as [tail Hw].
  cbn [written] in Hw. apply Z.eqb_eq in Hsig.
  exists file, tail. repeat split; assumption.
Qed.

(** X16: the converter does not accept its own output.  Whatever file a
    run leaves, a second run on that file stops at the depth check with
    "has not 24 bits per pixel" and leaves no file: the first run kept the
    signature and set the bit count to 4. *)
Theorem output_is_not_converted_again (fuel : nat) (input : option (list byte))
    (output_opens : bool) (fh_object ih_object : list byte) (r : outcome)
    (out : list byte)
    (fuel' : nat) (output_opens' : bool) (fh_object' ih_object' : list byte) :
  convert_bmp_24_to_4_depth fuel input output_opens fh_object ih_object = Some r ->
  output_file r = Some out ->
  convert_bmp_24_to_4_depth fuel' (Some out) output_opens' fh_object' ih_object'
  = Some {| cerr := Some File_has_not_24_bits_per_pixel; output_file := None |}.
Proof.
  intros H Hout.
  destruct (output_of_a_run _ _ _ _ _ _ _ H Hout) as (file & tail & _ & Hsig & ->).
  set (fh := file_header_read fh_object ih_object file) in *.
  set (ih := info_header_read fh_object ih_object file).
  rewrite convert_unfold. cbv zeta.
  destruct (headers_of_whole_file fh_object' ih_object'
              (written_before_pixels fh ih ++ tail)) as (-> & -> & _).
  { rewrite length_app, written_before_pixels_length. lia. }
  rewrite field_file_header, field_info_header.
  rewrite bf_type_load_store, bi_bit_count_load_store.
  cbn [update_file_header update_info_header bf_type bi_bit_count].
  rewrite Hsig. reflexivity.
Qed.

Lemma output_is_not_converted_again_witness :
  exists out : list byte,
    convert_bmp_24_to_4_depth 3 (Some file_1x1) true fh_zeroed ih_zeroed
    = Some {| cerr := None; output_file := Some out |}
    /\ convert_bmp_24_to_4_depth 0 (Some out) true fh_zeroed ih_zeroed
       = Some {| cerr := Some File_has_not_24_bits_per_pixel; output_file := None |}.
Proof.
  assert (E : convert_bmp_24_to_4_depth 3 (Some file_1x1) true fh_zeroed ih_zeroed
              = Some {| cerr := None;
                        output_file :=
                          Some (written_before_pixels
                                  (file_header_read fh_zeroed ih_zeroed file_1x1)
                                  (info_header_read fh_zeroed ih_zeroed file_1x1)
                                ++ [x00]) |})
    by (vm_compute; reflexivity).
  eexists. split; [exact E|].
  apply (output_is_not_converted_again 3 (Some file_1x1) true fh_zeroed ih_zeroed
           _ _ 0 true fh_zeroed ih_zeroed E).
  reflexivity.
Defined.

(** ** The width -1 *)

(** With the bound [-1], that is 2^64 - 1 as a [std::size_t], the even
    counter of the column loop is always below the bound. *)
Lemma column_loop_never_ends (fuel : nat) :
  forall column st,
    0 <= column < 2 ^ 64 -> column mod 2 = 0 ->
    column_loop fuel (-1) column st = None.
Proof.
  induction fuel as [|fuel IH]; intros column st Hr Hev; [reflexivity|].
  cbn [column_loop]. change (to_size_t (-1)) with (2 ^ 64 - 1).
  assert (Hne : column <> 2 ^ 64 - 1).
  { intros ->. revert Hev. vm_compute. discriminate. }
  destruct (Z.ltb_spec column (2 ^ 64 - 1)) as [_|Hge]; [|lia].
  apply IH; [apply to_size_t_range|].
  unfold to_size_t.
  rewrite Z.mod_mod_divide by (exists (2 ^ 63); reflexivity).
  replace (column + 2) with (column + 1 * 2) by lia.
  rewrite Z.mod_add by lia. exact Hev.
Qed.

(** X17: on a 24-bit file whose width field is -1 and whose height field
    is not 0 the converter never returns.  The [int] bound -1 is compared
    as the [std::size_t] 2^64 - 1, which the counter, going up by two from
    0 and wrapping round to 0, never reaches, so that the column loop of the
    first row reads and writes for ever: whatever the number of steps
    allowed, the run is not over. *)
Theorem width_minus_one_never_returns (file fh_object ih_object : list byte)
    (fuel : nat) :
  bf_type (file_header_read fh_object ih_object file) = constants.BMP_SIGNATURE ->
  bi_bit_count (info_header_read fh_object ih_object file) = 24 ->
  bi_width (info_header_read fh_object ih_object file) = -1 ->
  bi_height (info_header_read fh_object ih_object file) <> 0 ->
  convert_bmp_24_to_4_depth fuel (Some file) true fh_object ih_object = None.
Proof.
  intros Hsig Hbits Hw Hh. rewrite convert_unfold. cbv zeta.
  rewrite Hsig, Hbits, Hw. cbn [negb Z.eqb Pos.eqb].
  change (constants.BMP_SIGNATURE =? constants.BMP_SIGNATURE) with true. cbn [negb].
  pose proof (bi_height_range fh_object ih_object file) as Hr.
  destruct fuel as [|fuel]; [reflexivity|].
  cbn [row_loop].
  assert (Hpos : 0 < to_size_t (bi_height (info_header_read fh_object ih_object file))).
  { pose proof (to_size_t_range (bi_height (info_header_read fh_object ih_object file))) as Hs.
    assert (to_size_t (bi_height (info_header_read fh_object ih_object file)) <> 0); [|lia].
    unfold to_size_t. intros Hz. apply Z.mod_divide in Hz; [|lia].
    destruct Hz as [k Hk]. lia. }
  destruct (Z.ltb_spec 0 (to_size_t (bi_height (info_header_read fh_object ih_object file))))
    as [_|Hge]; [|lia].
  rewrite column_loop_never_ends; [reflexivity|lia|reflexivity].
Qed.

Lemma width_minus_one_never_returns_witness :
  convert_bmp_24_to_4_depth 1000 (Some file_of_width_minus_one) true
    fh_zeroed ih_zeroed = None.
Proof.
  apply (width_minus_one_never_returns file_of_width_minus_one fh_zeroed ih_zeroed 1000).
  - vm_compute. reflexivity.
  - vm_compute. reflexivity.
  - vm_compute. reflexivity.
  - vm_compute. discriminate.
Defined.
